(** * GitSync registry: repository and replication-target handlers

    A shallow embedding of the HTTP handlers of [internal/handlers]
    (the facade [Handler] over [RepoHandler] and [TargetHandler], and the
    earlier single-file [Handler]) over a relational store with the two
    tables of [migrations/001_initial.sql]. *)

From Stdlib Require Import ZArith Ascii String List Sorted Permutation.
From Stdlib Require OrderedTypeEx.
From stdpp Require Import base option list gmap strings sorting.

Open Scope Z_scope.
Open Scope string_scope.
Open Scope list_scope.

(** ** Go strings

    A Go string is a byte sequence; [string] is the same thing.  The request
    fields come out of [encoding/json], so they hold valid UTF-8. *)

Module strings.

(** [unicode.IsSpace] on the UTF-8 encoding: the one-byte spaces
    [\t \n \v \f \r ' '], the two-byte U+0085 and U+00A0, and the
    three-byte U+1680, U+2000..U+200A, U+2028, U+2029, U+202F, U+205F and
    U+3000. *)
Definition space1 (a : ascii) : bool :=
  let n := N_of_ascii a in
  ((9 <=? n)%N && (n <=? 13)%N) || (n =? 32)%N.

Definition space2 (a b : ascii) : bool :=
  (N_of_ascii a =? 194)%N &&
  ((N_of_ascii b =? 133)%N || (N_of_ascii b =? 160)%N).

Definition space3 (a b c : ascii) : bool :=
  let x := N_of_ascii a in
  let y := N_of_ascii b in
  let z := N_of_ascii c in
  ((x =? 225)%N && (y =? 154)%N && (z =? 128)%N)
  || ((x =? 226)%N && (y =? 128)%N &&
      (((128 <=? z)%N && (z <=? 138)%N)
       || (z =? 168)%N || (z =? 169)%N || (z =? 175)%N))
  || ((x =? 226)%N && (y =? 129)%N && (z =? 159)%N)
  || ((x =? 227)%N && (y =? 128)%N && (z =? 128)%N).

(** Drop the white space runes at the front; [p2] and [p3] recognise the
    two- and three-byte ones in the order the bytes are met. *)
Fixpoint trim_front (p2 : ascii -> ascii -> bool)
    (p3 : ascii -> ascii -> ascii -> bool) (s : string) : string :=
  match s with
  | EmptyString => EmptyString
  | String a s1 =>
      if space1 a then trim_front p2 p3 s1
      else
        match s1 with
        | EmptyString => s
        | String b s2 =>
            if p2 a b then trim_front p2 p3 s2
            else
              match s2 with
              | EmptyString => s
              | String c s3 =>
                  if p3 a b c then trim_front p2 p3 s3 else s
              end
        end
  end.

Definition TrimLeft (s : string) : string := trim_front space2 space3 s.

Definition TrimRight (s : string) : string :=
  String.rev
    (trim_front (fun a b => space2 b a) (fun a b c => space3 c b a)
       (String.rev s)).

Definition TrimSpace (s : string) : string := TrimRight (TrimLeft s).

Definition HasPrefix (s pre : string) : bool := String.prefix pre s.

End strings.

(** ** package models *)

Definition Time := Z.

(** A Go slice: [None] is the nil slice, which [append] turns into a
    non-nil one. *)
Definition slice (A : Type) := option (list A).

Definition len {A} (s : slice A) : nat :=
  match s with None => 0%nat | Some l => length l end.

Definition append {A} (s : slice A) (x : A) : slice A :=
  match s with None => Some [x] | Some l => Some (l ++ [x]) end.

Definition elems {A} (s : slice A) : list A :=
  match s with None => [] | Some l => l end.

(** [append(s, l...)]: nothing to add leaves the slice as it is, nil
    included. *)
Definition append_all {A} (s : slice A) (l : list A) : slice A :=
  match l with [] => s | _ :: _ => Some (elems s ++ l) end.

Module Target.
Record t := mk {
  ID : string;
  RepositoryID : string;
  Provider : string;
  RemoteURL : string;
  CreatedAt : Time
}.
End Target.

Module Repository.
Record t := mk {
  ID : string;
  Name : string;
  SourceProvider : string;
  SourceURL : string;
  CreatedAt : Time;
  Targets : slice Target.t
}.
End Repository.

Module CreateRepositoryRequest.
Record t := mk {
  Name : string;
  SourceProvider : string;
  SourceURL : string
}.
End CreateRepositoryRequest.

Module CreateTargetRequest.
Record t := mk {
  Provider : string;
  RemoteURL : string
}.
End CreateTargetRequest.

(** ** encoding/json, as far as the struct tags of [models] use it *)

#[warnings="-register-all"]
Inductive json :=
| JNull
| JString (s : string)
| JTime (t : Time)
| JArray (l : list json)
| JObject (fields : list (string * json)).

Module Json.

(** A nil slice is encoded as [null], any other slice as an array. *)
Definition slice_ {A} (enc : A -> json) (s : slice A) : json :=
  match s with
  | None => JNull
  | Some l => JArray (map enc l)
  end.

(** The [omitempty] option leaves a slice of length zero out. *)
Definition omitempty {A} (key : string) (enc : A -> json) (s : slice A)
  : list (string * json) :=
  match len s with
  | O => []
  | S _ => [(key, slice_ enc s)]
  end.

Definition Target_ (x : Target.t) : json :=
  JObject [ ("id", JString (Target.ID x));
            ("repository_id", JString (Target.RepositoryID x));
            ("provider", JString (Target.Provider x));
            ("remote_url", JString (Target.RemoteURL x));
            ("created_at", JTime (Target.CreatedAt x)) ].

Definition Repository_ (x : Repository.t) : json :=
  JObject ([ ("id", JString (Repository.ID x));
             ("name", JString (Repository.Name x));
             ("source_provider", JString (Repository.SourceProvider x));
             ("source_url", JString (Repository.SourceURL x));
             ("created_at", JTime (Repository.CreatedAt x)) ]
           ++ omitempty "targets" Target_ (Repository.Targets x)).

(** The value under a key of an object. *)
Fixpoint assoc (key : string) (fields : list (string * json)) : option json :=
  match fields with
  | [] => None
  | (k, v) :: rest => if String.eqb k key then Some v else assoc key rest
  end.

Definition field (key : string) (v : json) : option json :=
  match v with
  | JObject fields => assoc key fields
  | _ => None
  end.

End Json.

(** ** The relational store

    Rows of the two tables of [001_initial.sql]; identifiers are opaque
    strings. *)

Module repositories.
Record row := mk {
  id : string;
  name : string;
  source_provider : string;
  source_url : string;
  created_at : Time
}.
End repositories.

Module replication_targets.
Record row := mk {
  id : string;
  repository_id : string;
  provider : string;
  remote_url : string;
  created_at : Time
}.
End replication_targets.

(** What one request cannot control: which of its round trips to the store
    fail ([fault k] for the k-th statement it issues), the reading of
    [time.Now()], and the random identifier drawn by [uuid.New()] in the
    process or by [gen_random_uuid()] in the store. *)
Record Env := {
  fault : nat -> bool;
  now : Time;
  uuid_New : string;
  gen_random_uuid : string
}.

(** The statements the handlers send, as they appear in the source. *)
Inductive Stmt :=
| SelectExistsRepositoryBySourceURL (source_url : string)
| InsertRepositoryReturningID (name source_provider source_url : string)
    (created_at : Time)
| InsertRepository (id name source_provider source_url : string)
    (created_at : Time)
| SelectRepositoriesOrderByCreatedAtDesc
| SelectTargetsByRepositoryID (repository_id : string)
| SelectExistsRepositoryByID (id : string)
| SelectExistsTarget (repository_id remote_url : string)
| InsertTargetReturningID (repository_id provider remote_url : string)
    (created_at : Time)
| InsertTarget (id repository_id provider remote_url : string)
    (created_at : Time).

Module database.

Record DB := {
  repositories_tbl : list repositories.row;
  replication_targets_tbl : list replication_targets.row
}.

(** [SELECT EXISTS(SELECT 1 FROM repositories WHERE source_url = $1)] *)
Definition exists_repository_by_source_url (db : DB) (url : string) : bool :=
  existsb (fun r => String.eqb (repositories.source_url r) url)
    (repositories_tbl db).

(** [SELECT EXISTS(SELECT 1 FROM repositories WHERE id = $1)] *)
Definition exists_repository_by_id (db : DB) (id : string) : bool :=
  existsb (fun r => String.eqb (repositories.id r) id) (repositories_tbl db).

(** [SELECT EXISTS(SELECT 1 FROM replication_targets
     WHERE repository_id = $1 AND remote_url = $2)] *)
Definition exists_target (db : DB) (repository_id url : string) : bool :=
  existsb
    (fun r => String.eqb (replication_targets.repository_id r) repository_id
              && String.eqb (replication_targets.remote_url r) url)
    (replication_targets_tbl db).

Definition exists_target_by_id (db : DB) (id : string) : bool :=
  existsb (fun r => String.eqb (replication_targets.id r) id)
    (replication_targets_tbl db).

(** [INSERT INTO repositories]: the primary key rejects an identifier that
    is already in the table; a rejected statement changes nothing. *)
Definition insert_repository (db : DB) (r : repositories.row) : option DB :=
  if exists_repository_by_id db (repositories.id r) then None
  else Some {| repositories_tbl := repositories_tbl db ++ [r];
               replication_targets_tbl := replication_targets_tbl db |}.

(** [INSERT INTO replication_targets]: primary key as above, and
    [repository_id] references [repositories(id)]. *)
Definition insert_target (db : DB) (r : replication_targets.row) : option DB :=
  if exists_target_by_id db (replication_targets.id r) then None
  else if exists_repository_by_id db (replication_targets.repository_id r)
  then Some {| repositories_tbl := repositories_tbl db;
               replication_targets_tbl := replication_targets_tbl db ++ [r] |}
  else None.

(** [ORDER BY created_at DESC] *)
Definition created_desc (a b : repositories.row) : Prop :=
  repositories.created_at b <= repositories.created_at a.

#[export] Instance created_desc_dec a b : Decision (created_desc a b) :=
  Z_le_dec _ _.

(** [SELECT ... FROM repositories ORDER BY created_at DESC] *)
Definition select_repositories (db : DB) : list repositories.row :=
  merge_sort created_desc (repositories_tbl db).

(** [SELECT ... FROM replication_targets WHERE repository_id = $1] *)
Definition select_targets (db : DB) (repository_id : string)
  : list replication_targets.row :=
  List.filter
    (fun r => String.eqb (replication_targets.repository_id r) repository_id)
    (replication_targets_tbl db).

(** One round trip: the k-th statement of the request either fails with an
    error ([None]) and leaves the store as it was, or is carried out. *)
Definition round_trip {A} (env : Env) (k : nat) (answer : option A) : option A :=
  if fault env k then None else answer.

End database.

Module database_sql.
Import database.

(** [INSERT INTO repositories (name, ...) ... RETURNING id]: the column
    default [gen_random_uuid()] supplies the identifier. *)
Definition insert_repository_returning_id (env : Env) (db : DB)
    (name source_provider source_url : string) (created_at : Time)
  : option (DB * string) :=
  let id := gen_random_uuid env in
  match insert_repository db
          (repositories.mk id name source_provider source_url created_at) with
  | Some db' => Some (db', id)
  | None => None
  end.

(** [INSERT INTO replication_targets (repository_id, ...) ... RETURNING id] *)
Definition insert_target_returning_id (env : Env) (db : DB)
    (repository_id provider remote_url : string) (created_at : Time)
  : option (DB * string) :=
  let id := gen_random_uuid env in
  match insert_target db
          (replication_targets.mk id repository_id provider remote_url
             created_at) with
  | Some db' => Some (db', id)
  | None => None
  end.

End database_sql.

(** ** net/http *)

Module http.

Definition StatusOK : Z := 200.
Definition StatusCreated : Z := 201.
Definition StatusBadRequest : Z := 400.
Definition StatusNotFound : Z := 404.
Definition StatusConflict : Z := 409.
Definition StatusInternalServerError : Z := 500.

Inductive body :=
| Text (msg : string)
| JSON (v : json).

Record Response := { Status : Z; Body : body }.

(** [http.Error(w, msg, code)] *)
Definition Error (msg : string) (code : Z) : Response :=
  {| Status := code; Body := Text msg |}.

(** [w.WriteHeader(code); json.NewEncoder(w).Encode(v)] *)
Definition Encode (code : Z) (v : json) : Response :=
  {| Status := code; Body := JSON v |}.

(** A request as a handler reads it: the path variables of [mux.Vars],
    and what [json.NewDecoder(r.Body).Decode(&req)] gives, [None] when it
    returns an error. *)
Record Request (A : Type) := {
  Vars : gmap string string;
  Decode : option A
}.
Arguments Vars {A} _.
Arguments Decode {A} _.

End http.

(** What a handler leaves behind: the store, the statements it sent (in
    order) and the response it wrote. *)
Record Result := {
  db_after : database.DB;
  stmts : list Stmt;
  resp : http.Response
}.

Definition reply (db : database.DB) (sent : list Stmt) (r : http.Response) : Result :=
  {| db_after := db; stmts := sent; resp := r |}.

(** ** package handlers *)

Definition allowedProviders : gmap string bool :=
  <["github" := true]> (<["gitlab" := true]> (<["gitea" := true]> ∅)).

(** [m[k]] on a Go map: the zero value when the key is missing. *)
Definition map_get (m : gmap string bool) (k : string) : bool :=
  default false (m !! k).

Definition blank (s : string) : bool := String.eqb (strings.TrimSpace s) "".

Module RepoHandler.
Import database database_sql http.

Definition CreateRepository (env : Env) (db : DB)
    (r : Request CreateRepositoryRequest.t) : Result :=
  match Decode r with
  | None => reply db [] (Error "invalid request body" StatusBadRequest)
  | Some req =>
    let name := CreateRepositoryRequest.Name req in
    let provider := CreateRepositoryRequest.SourceProvider req in
    let url := CreateRepositoryRequest.SourceURL req in
    if blank name then
      reply db [] (Error "name is required" StatusBadRequest)
    else if blank provider then
      reply db [] (Error "source_provider is required" StatusBadRequest)
    else if blank url then
      reply db [] (Error "source_url is required" StatusBadRequest)
    else if negb (map_get allowedProviders provider) then
      reply db []
        (Error "invalid source_provider. allowed: github, gitlab, gitea"
           StatusBadRequest)
    else if negb (strings.HasPrefix url "https://")
            && negb (strings.HasPrefix url "ssh://") then
      reply db []
        (Error "source_url must start with https:// or ssh://"
           StatusBadRequest)
    else
      let q0 := SelectExistsRepositoryBySourceURL url in
      match round_trip env 0 (Some (exists_repository_by_source_url db url)) with
      | None =>
          reply db [q0]
            (Error "failed to check repository existence"
               StatusInternalServerError)
      | Some true =>
          reply db [q0]
            (Error "repository with this source_url already exists"
               StatusConflict)
      | Some false =>
          let created := now env in
          let q1 := InsertRepositoryReturningID name provider url created in
          match round_trip env 1
                  (insert_repository_returning_id env db name provider url
                     created) with
          | None =>
              (* the driver's error text follows the colon *)
              reply db [q0; q1]
                (Error "failed to create repository: "
                   StatusInternalServerError)
          | Some (db', id) =>
              reply db' [q0; q1]
                (Encode StatusCreated
                   (Json.Repository_
                      (Repository.mk id name provider url created None)))
          end
      end
  end.

(** [rows.Scan] into a [models.Repository]; [Targets] stays nil. *)
Definition scan_repository (r : repositories.row) : Repository.t :=
  Repository.mk (repositories.id r) (repositories.name r)
    (repositories.source_provider r) (repositories.source_url r)
    (repositories.created_at r) None.

Definition scan_target (r : replication_targets.row) : Target.t :=
  Target.mk (replication_targets.id r) (replication_targets.repository_id r)
    (replication_targets.provider r) (replication_targets.remote_url r)
    (replication_targets.created_at r).

(** [for targetRows.Next() { ...; repo.Targets = append(repo.Targets, target) }] *)
Fixpoint collect_targets (rows : list replication_targets.row)
    (acc : slice Target.t) : slice Target.t :=
  match rows with
  | [] => acc
  | r :: rest => collect_targets rest (append acc (scan_target r))
  end.

Definition with_targets (repo : Repository.t) (ts : slice Target.t)
  : Repository.t :=
  Repository.mk (Repository.ID repo) (Repository.Name repo)
    (Repository.SourceProvider repo) (Repository.SourceURL repo)
    (Repository.CreatedAt repo) ts.

(** [for rows.Next() { ... }]: [k] statements were sent before this row;
    the loop ends with the slice, or with the error response. *)
Fixpoint each_repository (env : Env) (db : DB) (k : nat)
    (rows : list repositories.row) (repos : slice Repository.t)
    (sent : list Stmt) : list Stmt * (Response + slice Repository.t) :=
  match rows with
  | [] => (sent, inr repos)
  | row :: rest =>
      let repo := scan_repository row in
      let q := SelectTargetsByRepositoryID (Repository.ID repo) in
      match round_trip env k (Some (select_targets db (Repository.ID repo))) with
      | None =>
          (sent ++ [q],
           inl (Error "failed to fetch targets" StatusInternalServerError))
      | Some targetRows =>
          let repo :=
            with_targets repo (collect_targets targetRows (Repository.Targets repo)) in
          each_repository env db (S k) rest (append repos repo) (sent ++ [q])
      end
  end.

Definition ListRepositories (env : Env) (db : DB) : Result :=
  let q0 := SelectRepositoriesOrderByCreatedAtDesc in
  match round_trip env 0 (Some (select_repositories db)) with
  | None =>
      reply db [q0]
        (Error "failed to fetch repositories" StatusInternalServerError)
  | Some rows =>
      match each_repository env db 1 rows None [q0] with
      | (sent, inl failure) => reply db sent failure
      | (sent, inr repos) =>
          let repos := match repos with None => Some [] | Some _ => repos end in
          reply db sent (Encode StatusOK (Json.slice_ Json.Repository_ repos))
      end
  end.

End RepoHandler.

Module TargetHandler.
Import database database_sql http.

Definition CreateTarget (env : Env) (db : DB)
    (r : Request CreateTargetRequest.t) : Result :=
  let repoID := default "" (Vars r !! "id") in
  let q0 := SelectExistsRepositoryByID repoID in
  match round_trip env 0 (Some (exists_repository_by_id db repoID)) with
  | None | Some false =>
      (* err != nil || !exists *)
      reply db [q0] (Error "repository not found" StatusNotFound)
  | Some true =>
    match Decode r with
    | None => reply db [q0] (Error "invalid request body" StatusBadRequest)
    | Some req =>
      let provider := CreateTargetRequest.Provider req in
      let url := CreateTargetRequest.RemoteURL req in
      if blank provider then
        reply db [q0] (Error "provider is required" StatusBadRequest)
      else if negb (map_get allowedProviders provider) then
        reply db [q0]
          (Error "invalid provider. allowed: github, gitlab, gitea"
             StatusBadRequest)
      else if blank url then
        reply db [q0] (Error "remote_url is required" StatusBadRequest)
      else if negb (strings.HasPrefix url "https://")
              && negb (strings.HasPrefix url "ssh://") then
        reply db [q0]
          (Error "remote_url must start with https:// or ssh://"
             StatusBadRequest)
      else
        let q1 := SelectExistsTarget repoID url in
        match round_trip env 1 (Some (exists_target db repoID url)) with
        | None =>
            reply db [q0; q1]
              (Error "failed to check target existence"
                 StatusInternalServerError)
        | Some true =>
            reply db [q0; q1]
              (Error
                 "target with this remote_url already exists for this repository"
                 StatusConflict)
        | Some false =>
            let created := now env in
            let q2 := InsertTargetReturningID repoID provider url created in
            match round_trip env 2
                    (insert_target_returning_id env db repoID provider url
                       created) with
            | None =>
                reply db [q0; q1; q2]
                  (Error "failed to create target" StatusInternalServerError)
            | Some (db', id) =>
                reply db' [q0; q1; q2]
                  (Encode StatusCreated
                     (Json.Target_ (Target.mk id repoID provider url created)))
            end
        end
    end
  end.

End TargetHandler.

(** The facade of [handlers.go]: every method delegates. *)
Module Handler.

Definition CreateRepository := RepoHandler.CreateRepository.
Definition ListRepositories := RepoHandler.ListRepositories.
Definition CreateTarget := TargetHandler.CreateTarget.

End Handler.

(** The earlier single [Handler], which draws the identifier itself with
    [uuid.New()] and inserts it with [ExecContext]. *)
Module MonolithicHandler.
Import database http.

Definition CreateRepository (env : Env) (db : DB)
    (r : Request CreateRepositoryRequest.t) : Result :=
  match Decode r with
  | None => reply db [] (Error "invalid request body" StatusBadRequest)
  | Some req =>
    let name := CreateRepositoryRequest.Name req in
    let provider := CreateRepositoryRequest.SourceProvider req in
    let url := CreateRepositoryRequest.SourceURL req in
    if blank name then
      reply db [] (Error "name is required" StatusBadRequest)
    else if blank provider then
      reply db [] (Error "source_provider is required" StatusBadRequest)
    else if blank url then
      reply db [] (Error "source_url is required" StatusBadRequest)
    else if negb (map_get allowedProviders provider) then
      reply db []
        (Error "invalid source_provider. allowed: github, gitlab, gitea"
           StatusBadRequest)
    else if negb (strings.HasPrefix url "https://")
            && negb (strings.HasPrefix url "ssh://") then
      reply db []
        (Error "source_url must start with https:// or ssh://"
           StatusBadRequest)
    else
      let q0 := SelectExistsRepositoryBySourceURL url in
      match round_trip env 0 (Some (exists_repository_by_source_url db url)) with
      | None =>
          reply db [q0]
            (Error "failed to check repository existence"
               StatusInternalServerError)
      | Some true =>
          reply db [q0]
            (Error "repository with this source_url already exists"
               StatusConflict)
      | Some false =>
          let repo :=
            Repository.mk (uuid_New env) name provider url (now env) None in
          let q1 :=
            InsertRepository (Repository.ID repo) (Repository.Name repo)
              (Repository.SourceProvider repo) (Repository.SourceURL repo)
              (Repository.CreatedAt repo) in
          match round_trip env 1
                  (insert_repository db
                     (repositories.mk (Repository.ID repo)
                        (Repository.Name repo)
                        (Repository.SourceProvider repo)
                        (Repository.SourceURL repo)
                        (Repository.CreatedAt repo))) with
          | None =>
              reply db [q0; q1]
                (Error "failed to create repository: "
                   StatusInternalServerError)
          | Some db' =>
              reply db' [q0; q1]
                (Encode StatusCreated (Json.Repository_ repo))
          end
      end
  end.

Definition scan_repository (r : repositories.row) : Repository.t :=
  Repository.mk (repositories.id r) (repositories.name r)
    (repositories.source_provider r) (repositories.source_url r)
    (repositories.created_at r) None.

Definition scan_target (r : replication_targets.row) : Target.t :=
  Target.mk (replication_targets.id r) (replication_targets.repository_id r)
    (replication_targets.provider r) (replication_targets.remote_url r)
    (replication_targets.created_at r).

Fixpoint collect_targets (rows : list replication_targets.row)
    (acc : slice Target.t) : slice Target.t :=
  match rows with
  | [] => acc
  | r :: rest => collect_targets rest (append acc (scan_target r))
  end.

Fixpoint each_repository (env : Env) (db : DB) (k : nat)
    (rows : list repositories.row) (repos : slice Repository.t)
    (sent : list Stmt) : list Stmt * (Response + slice Repository.t) :=
  match rows with
  | [] => (sent, inr repos)
  | row :: rest =>
      let repo := scan_repository row in
      let q := SelectTargetsByRepositoryID (Repository.ID repo) in
      match round_trip env k (Some (select_targets db (Repository.ID repo))) with
      | None =>
          (sent ++ [q],
           inl (Error "failed to fetch targets" StatusInternalServerError))
      | Some targetRows =>
          let repo :=
            Repository.mk (Repository.ID repo) (Repository.Name repo)
              (Repository.SourceProvider repo) (Repository.SourceURL repo)
              (Repository.CreatedAt repo)
              (collect_targets targetRows (Repository.Targets repo)) in
          each_repository env db (S k) rest (append repos repo) (sent ++ [q])
      end
  end.

Definition ListRepositories (env : Env) (db : DB) : Result :=
  let q0 := SelectRepositoriesOrderByCreatedAtDesc in
  match round_trip env 0 (Some (select_repositories db)) with
  | None =>
      reply db [q0]
        (Error "failed to fetch repositories" StatusInternalServerError)
  | Some rows =>
      match each_repository env db 1 rows None [q0] with
      | (sent, inl failure) => reply db sent failure
      | (sent, inr repos) =>
          let repos := match repos with None => Some [] | Some _ => repos end in
          reply db sent (Encode StatusOK (Json.slice_ Json.Repository_ repos))
      end
  end.

Definition CreateTarget (env : Env) (db : DB)
    (r : Request CreateTargetRequest.t) : Result :=
  let repoID := default "" (Vars r !! "id") in
  let q0 := SelectExistsRepositoryByID repoID in
  match round_trip env 0 (Some (exists_repository_by_id db repoID)) with
  | None | Some false =>
      reply db [q0] (Error "repository not found" StatusNotFound)
  | Some true =>
    match Decode r with
    | None => reply db [q0] (Error "invalid request body" StatusBadRequest)
    | Some req =>
      let provider := CreateTargetRequest.Provider req in
      let url := CreateTargetRequest.RemoteURL req in
      if blank provider then
        reply db [q0] (Error "provider is required" StatusBadRequest)
      else if negb (map_get allowedProviders provider) then
        reply db [q0]
          (Error "invalid provider. allowed: github, gitlab, gitea"
             StatusBadRequest)
      else if blank url then
        reply db [q0] (Error "remote_url is required" StatusBadRequest)
      else if negb (strings.HasPrefix url "https://")
              && negb (strings.HasPrefix url "ssh://") then
        reply db [q0]
          (Error "remote_url must start with https:// or ssh://"
             StatusBadRequest)
      else
        let q1 := SelectExistsTarget repoID url in
        match round_trip env 1 (Some (exists_target db repoID url)) with
        | None =>
            reply db [q0; q1]
              (Error "failed to check target existence"
                 StatusInternalServerError)
        | Some true =>
            reply db [q0; q1]
              (Error
                 "target with this remote_url already exists for this repository"
                 StatusConflict)
        | Some false =>
            let target :=
              Target.mk (uuid_New env) repoID provider url (now env) in
            let q2 :=
              InsertTarget (Target.ID target) (Target.RepositoryID target)
                (Target.Provider target) (Target.RemoteURL target)
                (Target.CreatedAt target) in
            match round_trip env 2
                    (insert_target db
                       (replication_targets.mk (Target.ID target)
                          (Target.RepositoryID target)
                          (Target.Provider target)
                          (Target.RemoteURL target)
                          (Target.CreatedAt target))) with
            | None =>
                reply db [q0; q1; q2]
                  (Error "failed to create target" StatusInternalServerError)
            | Some db' =>
                reply db' [q0; q1; q2]
                  (Encode StatusCreated (Json.Target_ target))
            end
        end
    end
  end.

End MonolithicHandler.

(** ** The input constraints, in the words of the specification *)

Definition begins_with (s pre : string) : Prop := exists rest, s = String.append pre rest.

Definition allowed_provider (p : string) : Prop :=
  p = "github" \/ p = "gitlab" \/ p = "gitea".

Definition blank_after_trimming (s : string) : Prop := strings.TrimSpace s = "".

Definition url_scheme (url : string) : Prop :=
  begins_with url "https://" \/ begins_with url "ssh://".

Inductive Field := FName | FSourceProvider | FSourceURL.

Definition json_name (f : Field) : string :=
  match f with
  | FName => "name"
  | FSourceProvider => "source_provider"
  | FSourceURL => "source_url"
  end.

Definition field_violated (req : CreateRepositoryRequest.t) (f : Field) : Prop :=
  match f with
  | FName => blank_after_trimming (CreateRepositoryRequest.Name req)
  | FSourceProvider =>
      blank_after_trimming (CreateRepositoryRequest.SourceProvider req)
      \/ ~ allowed_provider (CreateRepositoryRequest.SourceProvider req)
  | FSourceURL =>
      blank_after_trimming (CreateRepositoryRequest.SourceURL req)
      \/ ~ url_scheme (CreateRepositoryRequest.SourceURL req)
  end.

Definition violates (req : CreateRepositoryRequest.t) : Prop :=
  exists f, field_violated req f.

Definition target_violates (req : CreateTargetRequest.t) : Prop :=
  ~ allowed_provider (CreateTargetRequest.Provider req)
  \/ blank_after_trimming (CreateTargetRequest.RemoteURL req)
  \/ ~ url_scheme (CreateTargetRequest.RemoteURL req).

(** The repository identifier of the request path, [mux.Vars(r)["id"]]. *)
Definition path_id {A} (r : http.Request A) : string :=
  default "" (http.Vars r !! "id").

(** The fields a plain-text message names. *)
Definition contains (msg sub : string) : bool :=
  match String.index 0 sub msg with Some _ => true | None => false end.

Definition named_fields (msg : string) : list Field :=
  List.filter (fun f => contains msg (json_name f))
    [FName; FSourceProvider; FSourceURL].

(** No round trip of the request fails. *)
Definition reliable (env : Env) : Prop := forall k, fault env k = false.

(** The identifiers and source URLs a store holds. *)
Definition repository_ids (db : database.DB) : list string :=
  map repositories.id (database.repositories_tbl db).

Definition target_ids (db : database.DB) : list string :=
  map replication_targets.id (database.replication_targets_tbl db).

Definition source_urls (db : database.DB) : list string :=
  map repositories.source_url (database.repositories_tbl db).

Definition target_keys (db : database.DB) : list (string * string) :=
  map (fun r => (replication_targets.repository_id r,
                 replication_targets.remote_url r))
    (database.replication_targets_tbl db).

(** The repository of a row with the targets the store holds for it, as
    [ListRepositories] builds it. *)
Definition listed (db : database.DB) (row : repositories.row) : Repository.t :=
  RepoHandler.with_targets (RepoHandler.scan_repository row)
    (RepoHandler.collect_targets
       (database.select_targets db (repositories.id row)) None).

(** The targets queries of a listing, one per repository row. *)
Definition target_queries (rows : list repositories.row) : list Stmt :=
  map (fun row => SelectTargetsByRepositoryID (repositories.id row)) rows.

(** The array a complete listing writes. *)
Definition listing (db : database.DB) : json :=
  JArray (map (fun row => Json.Repository_ (listed db row))
            (database.select_repositories db)).

(** ** Fixtures *)

Module Fixtures.
Import database http.

Definition steady (t : Time) (id : string) : Env :=
  {| fault := fun _ => false; now := t; uuid_New := id;
     gen_random_uuid := id |}.

Definition failing_first (t : Time) (id : string) : Env :=
  {| fault := fun k => Nat.eqb k 0; now := t; uuid_New := id;
     gen_random_uuid := id |}.

Definition empty : DB :=
  {| repositories_tbl := []; replication_targets_tbl := [] |}.

Definition post {A} (id : string) (req : A) : Request A :=
  {| Vars := {[ "id" := id ]}; Decode := Some req |}.

Definition svc : CreateRepositoryRequest.t :=
  CreateRepositoryRequest.mk "svc" "github" "https://github.com/org/svc".

Definition lib : CreateRepositoryRequest.t :=
  CreateRepositoryRequest.mk "lib" "gitlab" "ssh://gitlab.com/org/lib".

Definition blank_name : CreateRepositoryRequest.t :=
  CreateRepositoryRequest.mk "  " "github" "https://github.com/org/svc".

Definition bitbucket : CreateRepositoryRequest.t :=
  CreateRepositoryRequest.mk "svc" "bitbucket" "https://bitbucket.org/org/svc".

Definition ftp : CreateRepositoryRequest.t :=
  CreateRepositoryRequest.mk "svc" "github" "ftp://x".

Definition mirror : CreateTargetRequest.t :=
  CreateTargetRequest.mk "gitea" "https://gitea.example/org/svc".

(** One repository, no target. *)
Definition one : DB :=
  {| repositories_tbl :=
       [repositories.mk "r1" "svc" "github" "https://github.com/org/svc" 7];
     replication_targets_tbl := [] |}.

(** Two repositories; the first has two targets. *)
Definition two : DB :=
  {| repositories_tbl :=
       [repositories.mk "r1" "svc" "github" "https://github.com/org/svc" 7;
        repositories.mk "r2" "lib" "gitlab" "ssh://gitlab.com/org/lib" 9];
     replication_targets_tbl :=
       [replication_targets.mk "t1" "r1" "gitlab" "https://gitlab.com/m/svc" 8;
        replication_targets.mk "t2" "r1" "gitea" "ssh://gitea.example/m/svc" 10] |}.

End Fixtures.

(** ** What the schema and the handlers keep true of a store

    The primary keys and the foreign key are the schema's; the distinct
    source URLs and the distinct (repository, remote URL) pairs are kept by
    the existence checks of the handlers alone. *)
Record consistent (db : database.DB) : Prop := {
  repository_ids_distinct : NoDup (repository_ids db);
  target_ids_distinct : NoDup (target_ids db);
  targets_reference_repositories :
    forall t, t ∈ database.replication_targets_tbl db ->
              replication_targets.repository_id t ∈ repository_ids db;
  source_urls_distinct : NoDup (source_urls db);
  target_keys_distinct : NoDup (target_keys db)
}.

(** ** The routes of [main]

    [(h *Handler) HealthCheck]: no status is written, so 200, and the map
    with the one key. *)
Definition HealthCheck : http.Response :=
  http.Encode http.StatusOK (JObject [("status", JString "ok")]).

(** The four routes registered on the router, with what the router hands to
    the handler: the decoded body, and for the targets route the path
    variable [id]. *)
Inductive Route :=
| GET_health
| POST_repositories (body : option CreateRepositoryRequest.t)
| GET_repositories
| POST_repository_targets (id : string) (body : option CreateTargetRequest.t).

Definition serve (env : Env) (db : database.DB) (route : Route) : Result :=
  match route with
  | GET_health => reply db [] HealthCheck
  | POST_repositories body =>
      Handler.CreateRepository env db
        {| http.Vars := ∅; http.Decode := body |}
  | GET_repositories => Handler.ListRepositories env db
  | POST_repository_targets id body =>
      Handler.CreateTarget env db
        {| http.Vars := {[ "id" := id ]}; http.Decode := body |}
  end.

(** Requests served one after the other, each in its own environment. *)
Fixpoint serve_all (db : database.DB) (calls : list (Env * Route))
  : database.DB :=
  match calls with
  | [] => db
  | (env, route) :: rest => serve_all (db_after (serve env db route)) rest
  end.

(** All the targets a listing attaches, in the order of the listing. *)
Definition listed_targets (db : database.DB) : list Target.t :=
  concat (map (fun row => elems (Repository.Targets (listed db row)))
            (database.select_repositories db)).

(** The fields of a target request a message names. *)
Inductive TargetField := FProvider | FRemoteURL.

Definition target_json_name (f : TargetField) : string :=
  match f with FProvider => "provider" | FRemoteURL => "remote_url" end.

Definition target_field_violated (req : CreateTargetRequest.t) (f : TargetField)
  : Prop :=
  match f with
  | FProvider => ~ allowed_provider (CreateTargetRequest.Provider req)
  | FRemoteURL =>
      blank_after_trimming (CreateTargetRequest.RemoteURL req)
      \/ ~ url_scheme (CreateTargetRequest.RemoteURL req)
  end.

Definition named_target_fields (msg : string) : list TargetField :=
  List.filter (fun f => contains msg (target_json_name f))
    [FProvider; FRemoteURL].

(** ** package database: the migrations

    [embed.FS] as [RunMigrations] reads it: the entries of a directory and
    the content of a file, each with its error. *)

Module fs.
Record DirEntry := { Name : string; IsDir : bool }.
End fs.

Module embed.
Record FS (Content : Type) := {
  ReadDir : string -> string + list fs.DirEntry;
  ReadFile : string -> string + Content
}.
Arguments ReadDir {Content} _ _.
Arguments ReadFile {Content} _ _.
End embed.

(** What a run leaves behind: the lines printed, the database, and the
    error returned ([None] for nil). *)
Record Run (S : Type) := {
  printed : list string;
  migrated : S;
  err : option string
}.
Arguments printed {S} _.
Arguments migrated {S} _.
Arguments err {S} _.

Module migrate.

(** [entries[i].Name() < entries[j].Name()] *)
Definition less (a b : fs.DirEntry) : bool := String.ltb (fs.Name a) (fs.Name b).

(** [sort.Slice(entries, less)]: no entry stays after one it is less than. *)
Definition ordered (a b : fs.DirEntry) : Prop := less b a = false.

#[global] Instance ordered_dec a b : Decision (ordered a b) :=
  bool_eq_dec _ _.

Definition sort_Slice (entries : list fs.DirEntry) : list fs.DirEntry :=
  merge_sort ordered entries.

(** [path.Join(dir, name)] for a name read from the directory. *)
Definition path_Join (dir name : string) : string := dir +:+ "/" +:+ name.

Section RunMigrations.
Context {Content S : Type}.
Variable migrations : embed.FS Content.
(** [db.Exec(string(content))]: the error, or the database after it. *)
Variable Exec : Content -> S -> string + S.

(** [for _, entry := range entries { ... }] *)
Fixpoint each_entry (entries : list fs.DirEntry) (db : S) (out : list string)
  : Run S :=
  match entries with
  | [] => {| printed := out; migrated := db; err := None |}
  | entry :: rest =>
      if fs.IsDir entry then each_entry rest db out
      else
        let migrationName := fs.Name entry in
        match embed.ReadFile migrations (path_Join "migrations" migrationName) with
        | inl e =>
            {| printed := out; migrated := db;
               err := Some ("failed to read migration " +:+ migrationName
                            +:+ ": " +:+ e) |}
        | inr content =>
            match Exec content db with
            | inl e =>
                {| printed := out; migrated := db;
                   err := Some ("failed to execute migration " +:+ migrationName
                                +:+ ": " +:+ e) |}
            | inr db' =>
                each_entry rest db'
                  (out ++ ["Applied migration: " +:+ migrationName])
            end
        end
  end.

Definition RunMigrations (db : S) : Run S :=
  match embed.ReadDir migrations "migrations" with
  | inl e =>
      {| printed := []; migrated := db;
         err := Some ("failed to read migrations directory: " +:+ e) |}
  | inr entries => each_entry (sort_Slice entries) db []
  end.

End RunMigrations.

(** The files a run goes through, in its order. *)
Definition files (entries : list fs.DirEntry) : list string :=
  map fs.Name (List.filter (fun e => negb (fs.IsDir e)) (sort_Slice entries)).

End migrate.

(** ** The statements of the migration files

    The two statement forms the files use, with what PostgreSQL does with
    them: tables and indexes share one name space; IF NOT EXISTS skips the
    statement when the name is taken; a foreign key needs the referenced
    table, its column as primary key, and the same column type; an index
    needs its table and columns.  A file is sent as one query, so it is
    carried out as a whole or not at all. *)
Module ddl.

Record reference := {
  ref_table : string;
  ref_column : string;
  on_delete_cascade : bool
}.

Record column := {
  col_name : string;
  col_type : string;
  primary_key : bool;
  not_null : bool;
  default : option string;
  references : option reference
}.

Record foreign_key := { fk_column : string; fk_references : reference }.

Inductive stmt :=
| CreateTableIfNotExists (name : string) (columns : list column)
    (foreign_keys : list foreign_key)
| CreateIndexIfNotExists (name table : string) (columns : list string).

Inductive relation :=
| Table (columns : list column) (foreign_keys : list foreign_key)
| Index (table : string) (columns : list string).

Definition stmt_name (q : stmt) : string :=
  match q with
  | CreateTableIfNotExists n _ _ => n
  | CreateIndexIfNotExists n _ _ => n
  end.

Definition find_column (cols : list column) (c : string) : option column :=
  List.find (fun x => String.eqb (col_name x) c) cols.

Definition ref_ok (rels : gmap string relation) (self : string)
    (cols : list column) (ty : string) (r : reference) : bool :=
  let target :=
    if String.eqb (ref_table r) self then Some cols
    else match rels !! ref_table r with
         | Some (Table cs _) => Some cs
         | _ => None
         end in
  match target with
  | Some cs =>
      match find_column cs (ref_column r) with
      | Some c => primary_key c && String.eqb (col_type c) ty
      | None => false
      end
  | None => false
  end.

Definition column_ok (rels : gmap string relation) (self : string)
    (cols : list column) (c : column) : bool :=
  match references c with
  | Some r => ref_ok rels self cols (col_type c) r
  | None => true
  end.

Definition foreign_key_ok (rels : gmap string relation) (self : string)
    (cols : list column) (k : foreign_key) : bool :=
  match find_column cols (fk_column k) with
  | Some c => ref_ok rels self cols (col_type c) (fk_references k)
  | None => false
  end.

Definition index_ok (rels : gmap string relation) (table : string)
    (cols : list string) : bool :=
  match rels !! table with
  | Some (Table cs _) =>
      forallb (fun c => match find_column cs c with Some _ => true | None => false end)
        cols
  | _ => false
  end.

Definition exec_stmt (q : stmt) (rels : gmap string relation)
  : string + gmap string relation :=
  match rels !! stmt_name q with
  | Some _ => inr rels
  | None =>
      match q with
      | CreateTableIfNotExists n cols fks =>
          if forallb (column_ok rels n cols) cols
             && forallb (foreign_key_ok rels n cols) fks
          then inr (<[n := Table cols fks]> rels)
          else inl ("foreign key of " +:+ n +:+ " cannot be implemented")
      | CreateIndexIfNotExists n t cols =>
          if index_ok rels t cols then inr (<[n := Index t cols]> rels)
          else inl ("relation or column of index " +:+ n +:+ " does not exist")
      end
  end.

Fixpoint exec_stmts (script : list stmt) (rels : gmap string relation)
  : string + gmap string relation :=
  match script with
  | [] => inr rels
  | q :: rest =>
      match exec_stmt q rels with
      | inl e => inl e
      | inr rels' => exec_stmts rest rels'
      end
  end.

(** [db.Exec] of a file: all of its statements, or the error and the
    database as it was. *)
Definition Exec (script : list stmt) (rels : gmap string relation)
  : string + gmap string relation := exec_stmts script rels.

Definition uuid_key : column :=
  {| col_name := "id"; col_type := "UUID"; primary_key := true;
     not_null := false; default := Some "gen_random_uuid()";
     references := None |}.

Definition text (name : string) : column :=
  {| col_name := name; col_type := "TEXT"; primary_key := false;
     not_null := true; default := None; references := None |}.

Definition created_at : column :=
  {| col_name := "created_at"; col_type := "TIMESTAMP"; primary_key := false;
     not_null := true; default := Some "NOW()"; references := None |}.

(** [migrations/001_initial.sql] *)
Definition initial : list stmt :=
  [ CreateTableIfNotExists "repositories"
      [ uuid_key; text "name"; text "source_provider"; text "source_url";
        created_at ] [];
    CreateTableIfNotExists "replication_targets"
      [ uuid_key;
        {| col_name := "repository_id"; col_type := "UUID";
           primary_key := false; not_null := true; default := None;
           references :=
             Some {| ref_table := "repositories"; ref_column := "id";
                     on_delete_cascade := true |} |};
        text "provider"; text "remote_url"; created_at ] [];
    CreateIndexIfNotExists "idx_replication_targets_repository_id"
      "replication_targets" ["repository_id"] ].

(** [migrations/002_executions.sql] *)
Definition executions : list stmt :=
  [ CreateTableIfNotExists "executions"
      [ uuid_key;
        {| col_name := "repository_id"; col_type := "UUID";
           primary_key := false; not_null := true; default := None;
           references := None |};
        {| col_name := "target_id"; col_type := "UUID";
           primary_key := false; not_null := true; default := None;
           references := None |};
        text "status";
        {| col_name := "error"; col_type := "TEXT"; primary_key := false;
           not_null := false; default := None; references := None |};
        {| col_name := "started_at"; col_type := "TIMESTAMP";
           primary_key := false; not_null := true; default := Some "NOW()";
           references := None |};
        {| col_name := "finished_at"; col_type := "TIMESTAMP";
           primary_key := false; not_null := false; default := None;
           references := None |} ]
      [ {| fk_column := "repository_id";
           fk_references :=
             {| ref_table := "repositories"; ref_column := "id";
                on_delete_cascade := false |} |};
        {| fk_column := "target_id";
           fk_references :=
             {| ref_table := "replication_targets"; ref_column := "id";
                on_delete_cascade := false |} |} ] ].

(** The earlier initial script (identifiers of type TEXT, without default). *)
Definition text_key : column :=
  {| col_name := "id"; col_type := "TEXT"; primary_key := true;
     not_null := false; default := None; references := None |}.

Definition earlier_initial : list stmt :=
  [ CreateTableIfNotExists "repositories"
      [ text_key; text "name"; text "source_provider"; text "source_url";
        created_at ] [];
    CreateTableIfNotExists "replication_targets"
      [ text_key;
        {| col_name := "repository_id"; col_type := "TEXT";
           primary_key := false; not_null := true; default := None;
           references :=
             Some {| ref_table := "repositories"; ref_column := "id";
                     on_delete_cascade := true |} |};
        text "provider"; text "remote_url"; created_at ] [];
    CreateIndexIfNotExists "idx_replication_targets_repository_id"
      "replication_targets" ["repository_id"] ].

(** A table with a primary key [id] of type UUID under this name. *)
Definition has_uuid_key (rels : gmap string relation) (table : string) : Prop :=
  exists cols fks c,
    rels !! table = Some (Table cols fks)
    /\ find_column cols "id" = Some c
    /\ primary_key c = true /\ col_type c = "UUID".

(** The directory embedded by [//go:embed migrations/*.sql]. *)
Definition embedded : embed.FS (list stmt) :=
  {| embed.ReadDir := fun dir =>
       if String.eqb dir "migrations"
       then inr [ {| fs.Name := "001_initial.sql"; fs.IsDir := false |};
                  {| fs.Name := "002_executions.sql"; fs.IsDir := false |} ]
       else inl "file does not exist";
     embed.ReadFile := fun path =>
       if String.eqb path "migrations/001_initial.sql" then inr initial
       else if String.eqb path "migrations/002_executions.sql" then inr executions
       else inl "file does not exist" |}.

End ddl.

(** Directories for trying the migrations: the embedded one listed in
    another order with a directory entry among the files, and one that
    holds the second file only. *)
Module MigrationFixtures.

Definition shuffled : embed.FS (list ddl.stmt) :=
  {| embed.ReadDir := fun dir =>
       if String.eqb dir "migrations"
       then inr [ {| fs.Name := "002_executions.sql"; fs.IsDir := false |};
                  {| fs.Name := "000_notes"; fs.IsDir := true |};
                  {| fs.Name := "001_initial.sql"; fs.IsDir := false |} ]
       else inl "file does not exist";
     embed.ReadFile := embed.ReadFile ddl.embedded |}.

Definition executions_only : embed.FS (list ddl.stmt) :=
  {| embed.ReadDir := fun dir =>
       if String.eqb dir "migrations"
       then inr [ {| fs.Name := "002_executions.sql"; fs.IsDir := false |} ]
       else inl "file does not exist";
     embed.ReadFile := embed.ReadFile ddl.embedded |}.

End MigrationFixtures.

(** ** package main: [getEnv]

    [os.Getenv] gives the empty string for a variable that is not set. *)
Definition Getenv (environ : gmap string string) (key : string) : string :=
  default "" (environ !! key).

Definition getEnv (environ : gmap string string) (key defaultValue : string)
  : string :=
  let value := Getenv environ key in
  if negb (String.eqb value "") then value else defaultValue.

(** [fmt.Sprintf("%s:%s", host, port)] of [main]. *)
Definition addr (environ : gmap string string) : string :=
  getEnv environ "SERVER_HOST" "0.0.0.0" +:+ ":"
  +:+ getEnv environ "SERVER_PORT" "8080".

(** The environment in which the store would draw the identifier the
    process draws. *)
Definition drawn_by_process (env : Env) : Env :=
  {| fault := fault env; now := now env; uuid_New := uuid_New env;
     gen_random_uuid := uuid_New env |}.

(** * Properties *)

(** ** Strings, the allow-list and the store's queries *)

Lemma prefix_begins_with pre : forall s,
  String.prefix pre s = true <-> begins_with s pre.
Proof.
  induction pre as [|a pre IH]; intros s.
  - split; [intros _; exists s; reflexivity | intros _; destruct s; reflexivity].
  - destruct s as [|b s]; simpl.
    + split; [discriminate | intros [rest H]; discriminate].
    + destruct (Ascii.ascii_dec a b) as [ -> | Hab].
      * rewrite IH. split; intros [rest H]; exists rest.
        -- simpl. now rewrite H.
        -- simpl in H. now inversion H.
      * split; [discriminate|].
        intros [rest H]. simpl in H. inversion H. congruence.
Qed.

Lemma HasPrefix_begins_with s pre :
  strings.HasPrefix s pre = true <-> begins_with s pre.
Proof. apply prefix_begins_with. Qed.

Lemma scheme_check url :
  negb (strings.HasPrefix url "https://") && negb (strings.HasPrefix url "ssh://")
  = false <-> url_scheme url.
Proof.
  unfold url_scheme. rewrite <- !HasPrefix_begins_with.
  destruct (strings.HasPrefix url "https://"),
           (strings.HasPrefix url "ssh://"); simpl; intuition congruence.
Qed.

Lemma map_get_allowed p :
  map_get allowedProviders p = true <-> allowed_provider p.
Proof.
  unfold map_get, allowedProviders, allowed_provider.
  destruct (decide (p = "github")) as [ -> | H1]; [rewrite lookup_insert_eq; simpl; tauto|].
  rewrite lookup_insert_ne by congruence.
  destruct (decide (p = "gitlab")) as [ -> | H2]; [rewrite lookup_insert_eq; simpl; tauto|].
  rewrite lookup_insert_ne by congruence.
  destruct (decide (p = "gitea")) as [ -> | H3]; [rewrite lookup_insert_eq; simpl; tauto|].
  rewrite lookup_insert_ne by congruence.
  rewrite lookup_empty. simpl. intuition congruence.
Qed.

Lemma blank_spec s : blank s = true <-> blank_after_trimming s.
Proof. unfold blank, blank_after_trimming. apply String.eqb_eq. Qed.

Example TrimSpace_ascii :
  strings.TrimSpace
    (String (ascii_of_nat 9)
       (String.append "  org/svc  " (String (ascii_of_nat 10) "")))
  = "org/svc".
Proof. reflexivity. Qed.

(** U+00A0 and U+2003 are white space, so a name made of them is blank. *)
Example blank_unicode :
  blank (String (ascii_of_nat 194) (String (ascii_of_nat 160)
          (String (ascii_of_nat 226) (String (ascii_of_nat 128)
            (String (ascii_of_nat 131) " ")))))
  = true
  /\ blank " x " = false.
Proof. split; reflexivity. Qed.

Lemma blank_not_allowed p : blank p = true -> ~ allowed_provider p.
Proof.
  intros Hb [ -> | [ -> | -> ] ]; vm_compute in Hb; discriminate.
Qed.

Lemma existsb_eqb_map {A} (key : A -> string) (k : string) (l : list A) :
  existsb (fun r => String.eqb (key r) k) l = true <-> k ∈ map key l.
Proof.
  rewrite existsb_exists, list_elem_of_In, in_map_iff.
  split; intros [r [H1 H2]]; exists r.
  - apply String.eqb_eq in H2. auto.
  - split; [assumption | now apply String.eqb_eq].
Qed.

Lemma exists_repository_by_id_spec db i :
  database.exists_repository_by_id db i = true <-> i ∈ repository_ids db.
Proof. apply existsb_eqb_map. Qed.

Lemma exists_repository_by_source_url_spec db u :
  database.exists_repository_by_source_url db u = true <-> u ∈ source_urls db.
Proof. apply existsb_eqb_map. Qed.

Lemma exists_target_by_id_spec db i :
  database.exists_target_by_id db i = true <-> i ∈ target_ids db.
Proof. apply existsb_eqb_map. Qed.

Lemma exists_target_spec db i u :
  database.exists_target db i u = true <-> (i, u) ∈ target_keys db.
Proof.
  unfold database.exists_target, target_keys.
  rewrite existsb_exists, list_elem_of_In, in_map_iff.
  split; intros [r [H1 H2]]; exists r.
  - apply andb_true_iff in H2 as [Ha Hb].
    apply String.eqb_eq in Ha, Hb. subst. auto.
  - inversion H1; subst. split; [assumption|].
    now rewrite !String.eqb_refl.
Qed.

Lemma not_true_false (b : bool) (P : Prop) : (b = true <-> P) -> ~ P -> b = false.
Proof. destruct b; intuition. Qed.

(** ** Validation in [CreateRepository] *)

Section CreateRepositoryValidation.
Import database database_sql http.
Variables (env : Env) (db : DB).
Variables (r : Request CreateRepositoryRequest.t) (req : CreateRepositoryRequest.t).
Hypothesis decoded : Decode r = Some req.

Let name := CreateRepositoryRequest.Name req.
Let provider := CreateRepositoryRequest.SourceProvider req.
Let url := CreateRepositoryRequest.SourceURL req.

(** A request that violates a constraint is answered 400, before any
    statement is sent, with a message naming one violated field. *)
Lemma CreateRepository_invalid :
  violates req ->
  exists msg f,
    RepoHandler.CreateRepository env db r
    = reply db [] (Error msg StatusBadRequest)
    /\ named_fields msg = [f] /\ field_violated req f.
Proof.
  intros Hv. unfold RepoHandler.CreateRepository. rewrite decoded.
  fold name provider url.
  destruct (blank name) eqn:E1.
  { eexists. exists FName. split; [reflexivity|]. split; [reflexivity|].
    now apply blank_spec. }
  destruct (blank provider) eqn:E2.
  { eexists. exists FSourceProvider. split; [reflexivity|]. split; [reflexivity|].
    left. now apply blank_spec. }
  destruct (blank url) eqn:E3.
  { eexists. exists FSourceURL. split; [reflexivity|]. split; [reflexivity|].
    left. now apply blank_spec. }
  destruct (map_get allowedProviders provider) eqn:E4; simpl.
  2:{ eexists. exists FSourceProvider. split; [reflexivity|]. split; [reflexivity|].
      right. rewrite <- map_get_allowed. fold provider. congruence. }
  destruct (negb (strings.HasPrefix url "https://")
            && negb (strings.HasPrefix url "ssh://")) eqn:E5.
  { eexists. exists FSourceURL. split; [reflexivity|]. split; [reflexivity|].
    right. rewrite <- scheme_check. fold url. congruence. }
  exfalso. destruct Hv as [[ | | ] Hf]; simpl in Hf; fold name provider url in Hf.
  - apply blank_spec in Hf. congruence.
  - destruct Hf as [Hf|Hf]; [apply blank_spec in Hf; congruence|].
    apply Hf, map_get_allowed, E4.
  - destruct Hf as [Hf|Hf]; [apply blank_spec in Hf; congruence|].
    apply Hf, scheme_check, E5.
Qed.

(** A request that passes validation goes on to the store. *)
Lemma CreateRepository_valid :
  ~ violates req ->
  RepoHandler.CreateRepository env db r
  = let q0 := SelectExistsRepositoryBySourceURL url in
    match round_trip env 0 (Some (exists_repository_by_source_url db url)) with
    | None =>
        reply db [q0]
          (Error "failed to check repository existence"
             StatusInternalServerError)
    | Some true =>
        reply db [q0]
          (Error "repository with this source_url already exists"
             StatusConflict)
    | Some false =>
        let q1 := InsertRepositoryReturningID name provider url (now env) in
        match round_trip env 1
                (insert_repository_returning_id env db name provider url
                   (now env)) with
        | None =>
            reply db [q0; q1]
              (Error "failed to create repository: " StatusInternalServerError)
        | Some (db', id) =>
            reply db' [q0; q1]
              (Encode StatusCreated
                 (Json.Repository_
                    (Repository.mk id name provider url (now env) None)))
        end
    end.
Proof.
  intros Hv. unfold RepoHandler.CreateRepository. rewrite decoded.
  fold name provider url.
  assert (blank name = false) as ->.
  { apply (not_true_false _ _ (blank_spec name)).
    intros H. apply Hv. now exists FName. }
  assert (blank provider = false) as ->.
  { apply (not_true_false _ _ (blank_spec provider)).
    intros H. apply Hv. exists FSourceProvider. now left. }
  assert (blank url = false) as ->.
  { apply (not_true_false _ _ (blank_spec url)).
    intros H. apply Hv. exists FSourceURL. now left. }
  assert (map_get allowedProviders provider = true) as ->.
  { destruct (map_get allowedProviders provider) eqn:E; [reflexivity|].
    exfalso. apply Hv. exists FSourceProvider. right.
    rewrite <- map_get_allowed. fold provider. congruence. }
  assert (negb (strings.HasPrefix url "https://")
          && negb (strings.HasPrefix url "ssh://") = false) as ->.
  { destruct (negb (strings.HasPrefix url "https://")
              && negb (strings.HasPrefix url "ssh://")) eqn:E; [|reflexivity].
    exfalso. apply Hv. exists FSourceURL. right.
    rewrite <- scheme_check. fold url. congruence. }
  reflexivity.
Qed.

(** Past validation the first statement is always sent. *)
Lemma CreateRepository_valid_queries :
  ~ violates req -> stmts (RepoHandler.CreateRepository env db r) <> [].
Proof.
  intros Hv. rewrite (CreateRepository_valid Hv). cbv zeta.
  destruct (round_trip env 0 _) as [[|]|]; [discriminate| |discriminate].
  destruct (round_trip env 1 _) as [[? ?]|]; discriminate.
Qed.

End CreateRepositoryValidation.

(** ** Inserts *)

Lemma insert_repository_Some db row db' :
  (database.insert_repository db row = Some db') <->
  (repositories.id row ∉ repository_ids db)
  /\ db' = {| database.repositories_tbl := database.repositories_tbl db ++ [row];
              database.replication_targets_tbl :=
                database.replication_targets_tbl db |}.
Proof.
  unfold database.insert_repository.
  destruct (database.exists_repository_by_id db (repositories.id row)) eqn:E.
  - apply exists_repository_by_id_spec in E. split; [discriminate|tauto].
  - split.
    + intros [= <-]. split; [|reflexivity].
      rewrite <- exists_repository_by_id_spec. congruence.
    + intros [_ ->]. reflexivity.
Qed.

Lemma insert_target_Some db row db' :
  (database.insert_target db row = Some db') <->
  (replication_targets.id row ∉ target_ids db)
  /\ replication_targets.repository_id row ∈ repository_ids db
  /\ db' = {| database.repositories_tbl := database.repositories_tbl db;
              database.replication_targets_tbl :=
                database.replication_targets_tbl db ++ [row] |}.
Proof.
  unfold database.insert_target.
  destruct (database.exists_target_by_id db (replication_targets.id row)) eqn:E.
  { apply exists_target_by_id_spec in E. split; [discriminate|tauto]. }
  assert (replication_targets.id row ∉ target_ids db) as Hid.
  { rewrite <- exists_target_by_id_spec. congruence. }
  destruct (database.exists_repository_by_id db
              (replication_targets.repository_id row)) eqn:F.
  - apply exists_repository_by_id_spec in F. split.
    + intros [= <-]. auto.
    + intros (_ & _ & ->). reflexivity.
  - split; [discriminate|]. intros (_ & H & _).
    apply exists_repository_by_id_spec in H. congruence.
Qed.

Lemma insert_repository_returning_id_Some env db n p u t db' id :
  (database_sql.insert_repository_returning_id env db n p u t = Some (db', id)) <->
  (id = gen_random_uuid env) /\ (id ∉ repository_ids db)
  /\ db' = {| database.repositories_tbl :=
                database.repositories_tbl db ++ [repositories.mk id n p u t];
              database.replication_targets_tbl :=
                database.replication_targets_tbl db |}.
Proof.
  unfold database_sql.insert_repository_returning_id.
  destruct (database.insert_repository db _) as [d|] eqn:E.
  - apply insert_repository_Some in E as [E1 E2]. simpl in E1. split.
    + intros [= <- <-]. auto.
    + intros (-> & _ & ->). now rewrite E2.
  - split; [discriminate|]. intros (-> & H & _).
    assert (database.insert_repository db
              (repositories.mk (gen_random_uuid env) n p u t) <> None) as N.
    { intros _.
      pose proof (proj2 (insert_repository_Some db
        (repositories.mk (gen_random_uuid env) n p u t) _) (conj H eq_refl)).
      congruence. }
    contradiction.
Qed.

Lemma insert_target_returning_id_Some env db i p u t db' id :
  (database_sql.insert_target_returning_id env db i p u t = Some (db', id)) <->
  (id = gen_random_uuid env) /\ (id ∉ target_ids db) /\ i ∈ repository_ids db
  /\ db' = {| database.repositories_tbl := database.repositories_tbl db;
              database.replication_targets_tbl :=
                database.replication_targets_tbl db
                ++ [replication_targets.mk id i p u t] |}.
Proof.
  unfold database_sql.insert_target_returning_id.
  destruct (database.insert_target db _) as [d|] eqn:E.
  - apply insert_target_Some in E as (E1 & E2 & E3). simpl in E1, E2. split.
    + intros [= <- <-]. auto.
    + intros (-> & _ & _ & ->). now rewrite E3.
  - split; [discriminate|]. intros (-> & H1 & H2 & _).
    pose proof (proj2 (insert_target_Some db
      (replication_targets.mk (gen_random_uuid env) i p u t) _)
      (conj H1 (conj H2 eq_refl))).
    congruence.
Qed.

(** ** Outcomes of [CreateRepository] *)

Lemma violates_dec req : violates req \/ ~ violates req.
Proof.
  destruct (blank (CreateRepositoryRequest.Name req)) eqn:E1.
  { left. exists FName. now apply blank_spec. }
  destruct (blank (CreateRepositoryRequest.SourceProvider req)) eqn:E2.
  { left. exists FSourceProvider. left. now apply blank_spec. }
  destruct (blank (CreateRepositoryRequest.SourceURL req)) eqn:E3.
  { left. exists FSourceURL. left. now apply blank_spec. }
  destruct (map_get allowedProviders (CreateRepositoryRequest.SourceProvider req))
    eqn:E4.
  2:{ left. exists FSourceProvider. right. rewrite <- map_get_allowed. congruence. }
  destruct (negb (strings.HasPrefix (CreateRepositoryRequest.SourceURL req) "https://")
            && negb (strings.HasPrefix (CreateRepositoryRequest.SourceURL req) "ssh://"))
    eqn:E5.
  { left. exists FSourceURL. right. rewrite <- scheme_check. congruence. }
  right. intros [[ | | ] Hf]; simpl in Hf.
  - apply blank_spec in Hf. congruence.
  - destruct Hf as [Hf|Hf]; [apply blank_spec in Hf; congruence|].
    apply Hf, map_get_allowed, E4.
  - destruct Hf as [Hf|Hf]; [apply blank_spec in Hf; congruence|].
    apply Hf, scheme_check, E5.
Qed.

Section CreateRepositoryOutcomes.
Import database database_sql http.
Variables (env : Env) (db : DB) (r : Request CreateRepositoryRequest.t).

Let res := RepoHandler.CreateRepository env db r.

(** Whatever is answered, the store either is as before or has gained the
    one row of a 201 answer. *)
Lemma CreateRepository_created :
  Status (resp res) = StatusCreated ->
  exists req,
    Decode r = Some req /\ ~ violates req
    /\ fault env 0 = false /\ fault env 1 = false
    /\ (CreateRepositoryRequest.SourceURL req ∉ source_urls db)
    /\ (gen_random_uuid env ∉ repository_ids db)
    /\ res =
       reply
         {| repositories_tbl :=
              repositories_tbl db
              ++ [repositories.mk (gen_random_uuid env)
                    (CreateRepositoryRequest.Name req)
                    (CreateRepositoryRequest.SourceProvider req)
                    (CreateRepositoryRequest.SourceURL req) (now env)];
            replication_targets_tbl := replication_targets_tbl db |}
         [SelectExistsRepositoryBySourceURL
            (CreateRepositoryRequest.SourceURL req);
          InsertRepositoryReturningID (CreateRepositoryRequest.Name req)
            (CreateRepositoryRequest.SourceProvider req)
            (CreateRepositoryRequest.SourceURL req) (now env)]
         (Encode StatusCreated
            (Json.Repository_
               (Repository.mk (gen_random_uuid env)
                  (CreateRepositoryRequest.Name req)
                  (CreateRepositoryRequest.SourceProvider req)
                  (CreateRepositoryRequest.SourceURL req) (now env) None))).
Proof.
  subst res. destruct (Decode r) as [req|] eqn:D.
  2:{ unfold RepoHandler.CreateRepository. rewrite D. discriminate. }
  destruct (violates_dec req) as [Hv|Hv].
  { destruct (CreateRepository_invalid env db r req D Hv) as (msg & f & -> & _).
    discriminate. }
  rewrite (CreateRepository_valid env db r req D Hv). cbv zeta.
  unfold round_trip.
  destruct (fault env 0) eqn:F0; [discriminate|].
  destruct (exists_repository_by_source_url db _) eqn:E; [discriminate|].
  destruct (fault env 1) eqn:F1; [discriminate|].
  destruct (insert_repository_returning_id env db _ _ _ _) as [[db' id]|] eqn:I;
    [|discriminate].
  apply insert_repository_returning_id_Some in I as (-> & Hid & ->).
  intros _. exists req. repeat split; try assumption; try reflexivity.
  rewrite <- exists_repository_by_source_url_spec. congruence.
Qed.

Lemma CreateRepository_not_created :
  Status (resp res) <> StatusCreated -> db_after res = db.
Proof.
  subst res. destruct (Decode r) as [req|] eqn:D.
  2:{ unfold RepoHandler.CreateRepository. rewrite D. reflexivity. }
  destruct (violates_dec req) as [Hv|Hv].
  { destruct (CreateRepository_invalid env db r req D Hv) as (msg & f & -> & _).
    reflexivity. }
  rewrite (CreateRepository_valid env db r req D Hv). cbv zeta.
  destruct (round_trip env 0 _) as [[|]|]; try reflexivity.
  destruct (round_trip env 1 _) as [[db' id]|]; [|reflexivity].
  simpl. intros H. now contradiction H.
Qed.

End CreateRepositoryOutcomes.

(** ** Outcomes of [CreateTarget] *)

Lemma target_violates_dec req : target_violates req \/ ~ target_violates req.
Proof.
  unfold target_violates.
  destruct (map_get allowedProviders (CreateTargetRequest.Provider req)) eqn:E1.
  2:{ left. left. rewrite <- map_get_allowed. congruence. }
  destruct (blank (CreateTargetRequest.RemoteURL req)) eqn:E2.
  { left. right. left. now apply blank_spec. }
  destruct (negb (strings.HasPrefix (CreateTargetRequest.RemoteURL req) "https://")
            && negb (strings.HasPrefix (CreateTargetRequest.RemoteURL req) "ssh://"))
    eqn:E3.
  { left. right. right. rewrite <- scheme_check. congruence. }
  right. intros [H|[H|H]].
  - apply H, map_get_allowed, E1.
  - apply blank_spec in H. congruence.
  - apply H, scheme_check, E3.
Qed.

Section CreateTargetOutcomes.
Import database database_sql http.
Variables (env : Env) (db : DB) (r : Request CreateTargetRequest.t).

Let res := TargetHandler.CreateTarget env db r.
Let repoID := path_id r.

(** The repository check answers 404 when the statement fails and when
    the repository is not there, before the body is read. *)
Lemma CreateTarget_no_repository :
  fault env 0 = true \/ (repoID ∉ repository_ids db) ->
  res = reply db [SelectExistsRepositoryByID repoID]
          (Error "repository not found" StatusNotFound).
Proof.
  subst res repoID. unfold TargetHandler.CreateTarget, round_trip, path_id.
  intros [F|N]; [now rewrite F|].
  destruct (fault env 0); [reflexivity|].
  rewrite (not_true_false _ _ (exists_repository_by_id_spec db _) N).
  reflexivity.
Qed.

Lemma CreateTarget_undecodable :
  fault env 0 = false -> repoID ∈ repository_ids db -> Decode r = None ->
  res = reply db [SelectExistsRepositoryByID repoID]
          (Error "invalid request body" StatusBadRequest).
Proof.
  subst res repoID. unfold TargetHandler.CreateTarget, round_trip, path_id.
  intros -> E D. apply exists_repository_by_id_spec in E.
  unfold path_id in E. rewrite E, D. reflexivity.
Qed.

Lemma CreateTarget_invalid req :
  fault env 0 = false -> repoID ∈ repository_ids db -> Decode r = Some req ->
  target_violates req ->
  exists msg,
    res = reply db [SelectExistsRepositoryByID repoID]
            (Error msg StatusBadRequest).
Proof.
  subst res repoID. unfold TargetHandler.CreateTarget, round_trip, path_id.
  intros -> E D Hv. apply exists_repository_by_id_spec in E.
  unfold path_id in E. rewrite E, D.
  destruct (blank (CreateTargetRequest.Provider req)); [eexists; reflexivity|].
  destruct (map_get allowedProviders _) eqn:E1; simpl; [|eexists; reflexivity].
  destruct (blank (CreateTargetRequest.RemoteURL req)) eqn:E2;
    [eexists; reflexivity|].
  destruct (negb _ && negb _) eqn:E3; [eexists; reflexivity|].
  exfalso. destruct Hv as [H|[H|H]].
  - apply H, map_get_allowed, E1.
  - apply blank_spec in H. congruence.
  - apply H, scheme_check, E3.
Qed.

Lemma CreateTarget_valid req :
  fault env 0 = false -> repoID ∈ repository_ids db -> Decode r = Some req ->
  ~ target_violates req ->
  res =
    let provider := CreateTargetRequest.Provider req in
    let url := CreateTargetRequest.RemoteURL req in
    let q0 := SelectExistsRepositoryByID repoID in
    let q1 := SelectExistsTarget repoID url in
    match round_trip env 1 (Some (exists_target db repoID url)) with
    | None =>
        reply db [q0; q1]
          (Error "failed to check target existence" StatusInternalServerError)
    | Some true =>
        reply db [q0; q1]
          (Error
             "target with this remote_url already exists for this repository"
             StatusConflict)
    | Some false =>
        let q2 := InsertTargetReturningID repoID provider url (now env) in
        match round_trip env 2
                (insert_target_returning_id env db repoID provider url
                   (now env)) with
        | None =>
            reply db [q0; q1; q2]
              (Error "failed to create target" StatusInternalServerError)
        | Some (db', id) =>
            reply db' [q0; q1; q2]
              (Encode StatusCreated
                 (Json.Target_ (Target.mk id repoID provider url (now env))))
        end
    end.
Proof.
  subst res repoID. unfold TargetHandler.CreateTarget, path_id.
  intros F E D Hv. apply exists_repository_by_id_spec in E.
  unfold path_id in E. unfold round_trip at 1. rewrite F, E, D.
  assert (map_get allowedProviders (CreateTargetRequest.Provider req) = true)
    as A.
  { destruct (map_get allowedProviders _) eqn:E1; [reflexivity|].
    exfalso. apply Hv. left. rewrite <- map_get_allowed. congruence. }
  assert (blank (CreateTargetRequest.Provider req) = false) as ->.
  { destruct (blank _) eqn:B; [|reflexivity].
    exfalso. apply (blank_not_allowed _ B), map_get_allowed, A. }
  rewrite A. simpl negb. cbv iota.
  assert (blank (CreateTargetRequest.RemoteURL req) = false) as ->.
  { apply (not_true_false _ _ (blank_spec _)). intros H. apply Hv.
    right. left. exact H. }
  assert (negb (strings.HasPrefix (CreateTargetRequest.RemoteURL req) "https://")
          && negb (strings.HasPrefix (CreateTargetRequest.RemoteURL req) "ssh://")
          = false) as ->.
  { destruct (negb _ && negb _) eqn:E3; [|reflexivity].
    exfalso. apply Hv. right. right. rewrite <- scheme_check. congruence. }
  reflexivity.
Qed.

End CreateTargetOutcomes.

Section CreateTargetStatus.
Import database database_sql http.
Variables (env : Env) (db : DB) (r : Request CreateTargetRequest.t).

Let res := TargetHandler.CreateTarget env db r.
Let repoID := path_id r.

Lemma CreateTarget_created :
  Status (resp res) = StatusCreated ->
  exists req,
    Decode r = Some req /\ ~ target_violates req
    /\ fault env 0 = false /\ fault env 1 = false /\ fault env 2 = false
    /\ repoID ∈ repository_ids db
    /\ ((repoID, CreateTargetRequest.RemoteURL req) ∉ target_keys db)
    /\ (gen_random_uuid env ∉ target_ids db)
    /\ res =
       reply
         {| repositories_tbl := repositories_tbl db;
            replication_targets_tbl :=
              replication_targets_tbl db
              ++ [replication_targets.mk (gen_random_uuid env) repoID
                    (CreateTargetRequest.Provider req)
                    (CreateTargetRequest.RemoteURL req) (now env)] |}
         [SelectExistsRepositoryByID repoID;
          SelectExistsTarget repoID (CreateTargetRequest.RemoteURL req);
          InsertTargetReturningID repoID (CreateTargetRequest.Provider req)
            (CreateTargetRequest.RemoteURL req) (now env)]
         (Encode StatusCreated
            (Json.Target_
               (Target.mk (gen_random_uuid env) repoID
                  (CreateTargetRequest.Provider req)
                  (CreateTargetRequest.RemoteURL req) (now env)))).
Proof.
  destruct (fault env 0) eqn:F0.
  { subst res. rewrite CreateTarget_no_repository by auto. discriminate. }
  destruct (decide (repoID ∈ repository_ids db)) as [E|E].
  2:{ subst res. rewrite CreateTarget_no_repository by auto. discriminate. }
  destruct (Decode r) as [req|] eqn:D.
  2:{ subst res. rewrite CreateTarget_undecodable by auto. discriminate. }
  destruct (target_violates_dec req) as [Hv|Hv].
  { destruct (CreateTarget_invalid env db r req F0 E D Hv) as [msg H].
    subst res. rewrite H. discriminate. }
  subst res. rewrite (CreateTarget_valid env db r req F0 E D Hv). cbv zeta.
  unfold round_trip.
  destruct (fault env 1) eqn:F1; [discriminate|].
  destruct (exists_target db _ _) eqn:X; [discriminate|].
  destruct (fault env 2) eqn:F2; [discriminate|].
  destruct (insert_target_returning_id env db _ _ _ _) as [[db' id]|] eqn:I;
    [|discriminate].
  apply insert_target_returning_id_Some in I as (-> & Hid & _ & ->).
  intros _. exists req.
  assert ((repoID, CreateTargetRequest.RemoteURL req) ∉ target_keys db) as K.
  { rewrite <- exists_target_spec. unfold repoID. congruence. }
  repeat (split; [first [assumption|reflexivity]|]). reflexivity.
Qed.

Lemma CreateTarget_not_created :
  Status (resp res) <> StatusCreated -> db_after res = db.
Proof.
  destruct (fault env 0) eqn:F0.
  { subst res. now rewrite CreateTarget_no_repository by auto. }
  destruct (decide (repoID ∈ repository_ids db)) as [E|E].
  2:{ subst res. now rewrite CreateTarget_no_repository by auto. }
  destruct (Decode r) as [req|] eqn:D.
  2:{ subst res. now rewrite CreateTarget_undecodable by auto. }
  destruct (target_violates_dec req) as [Hv|Hv].
  { destruct (CreateTarget_invalid env db r req F0 E D Hv) as [msg H].
    subst res. now rewrite H. }
  subst res. rewrite (CreateTarget_valid env db r req F0 E D Hv). cbv zeta.
  destruct (round_trip env 1 _) as [[|]|]; try reflexivity.
  destruct (round_trip env 2 _) as [[db' id]|]; [|reflexivity].
  simpl. intros H. now contradiction H.
Qed.

End CreateTargetStatus.

(** ** Requests of the fixtures *)

Lemma not_violates_intro n p u :
  blank n = false -> blank p = false -> blank u = false ->
  allowed_provider p -> url_scheme u ->
  ~ violates (CreateRepositoryRequest.mk n p u).
Proof.
  intros Bn Bp Bu Ap Su [[ | | ] Hf]; simpl in Hf.
  - apply blank_spec in Hf. congruence.
  - destruct Hf as [Hf|Hf]; [apply blank_spec in Hf; congruence|tauto].
  - destruct Hf as [Hf|Hf]; [apply blank_spec in Hf; congruence|tauto].
Defined.

Lemma not_target_violates_intro p u :
  allowed_provider p -> blank u = false -> url_scheme u ->
  ~ target_violates (CreateTargetRequest.mk p u).
Proof.
  intros Ap Bu Su [H|[H|H]]; simpl in H; try tauto.
  apply blank_spec in H. congruence.
Defined.

Lemma svc_valid : ~ violates Fixtures.svc.
Proof.
  apply not_violates_intro; try reflexivity.
  - left. reflexivity.
  - left. exists "github.com/org/svc". reflexivity.
Defined.

Lemma lib_valid : ~ violates Fixtures.lib.
Proof.
  apply not_violates_intro; try reflexivity.
  - right. left. reflexivity.
  - right. exists "gitlab.com/org/lib". reflexivity.
Defined.

Lemma mirror_valid : ~ target_violates Fixtures.mirror.
Proof.
  apply not_target_violates_intro; try reflexivity.
  - right. right. reflexivity.
  - left. exists "gitea.example/org/svc". reflexivity.
Defined.

Lemma not_elem_of_by_eqb {A} (key : A -> string) (k : string) (l : list A) :
  existsb (fun r => String.eqb (key r) k) l = false -> k ∉ map key l.
Proof. intros H N. apply existsb_eqb_map in N. congruence. Defined.

(** ** The claims about [CreateRepository] *)

(** C3. For a request whose body decodes, [CreateRepository] answers 400
    without sending any statement to the store if and only if an input
    constraint is violated (name, source provider or source URL blank after
    trimming, provider outside github, gitlab and gitea, URL not beginning
    with https:// or ssh://); the message of that answer names exactly one
    field, a violated one, and the store is left as it was. *)
Theorem C3_validation_rejects_exactly_violations
    (env : Env) (db : database.DB) (r : http.Request CreateRepositoryRequest.t)
    (req : CreateRepositoryRequest.t) :
  http.Decode r = Some req ->
  let res := RepoHandler.CreateRepository env db r in
  ((http.Status (resp res) = http.StatusBadRequest /\ stmts res = [])
   <-> violates req)
  /\ (violates req ->
      exists msg f,
        http.Body (resp res) = http.Text msg
        /\ named_fields msg = [f] /\ field_violated req f
        /\ stmts res = [] /\ db_after res = db).
Proof.
  intros D res. subst res. split; [split|].
  - intros [_ Hs]. destruct (violates_dec req) as [Hv|Hv]; [assumption|].
    exfalso. exact (CreateRepository_valid_queries env db r req D Hv Hs).
  - intros Hv.
    destruct (CreateRepository_invalid env db r req D Hv) as (msg & f & -> & _).
    split; reflexivity.
  - intros Hv.
    destruct (CreateRepository_invalid env db r req D Hv)
      as (msg & f & -> & Hn & Hf).
    exists msg, f. repeat split; assumption.
Qed.

Section CreateRepositoryStore.
Import database database_sql http.
Variables (env : Env) (db : DB).
Variables (r : Request CreateRepositoryRequest.t) (req : CreateRepositoryRequest.t).
Hypothesis decoded : Decode r = Some req.
Hypothesis valid : ~ violates req.
Hypothesis answered : fault env 0 = false.

Lemma CreateRepository_conflict :
  CreateRepositoryRequest.SourceURL req ∈ source_urls db ->
  RepoHandler.CreateRepository env db r
  = reply db
      [SelectExistsRepositoryBySourceURL (CreateRepositoryRequest.SourceURL req)]
      (Error "repository with this source_url already exists" StatusConflict).
Proof.
  intros Hin. rewrite (CreateRepository_valid env db r req decoded valid).
  cbv zeta. unfold round_trip. rewrite answered.
  apply exists_repository_by_source_url_spec in Hin. now rewrite Hin.
Qed.

Lemma CreateRepository_success :
  (CreateRepositoryRequest.SourceURL req ∉ source_urls db) ->
  fault env 1 = false -> (gen_random_uuid env ∉ repository_ids db) ->
  RepoHandler.CreateRepository env db r
  = reply
      {| repositories_tbl :=
           repositories_tbl db
           ++ [repositories.mk (gen_random_uuid env)
                 (CreateRepositoryRequest.Name req)
                 (CreateRepositoryRequest.SourceProvider req)
                 (CreateRepositoryRequest.SourceURL req) (now env)];
         replication_targets_tbl := replication_targets_tbl db |}
      [SelectExistsRepositoryBySourceURL
         (CreateRepositoryRequest.SourceURL req);
       InsertRepositoryReturningID (CreateRepositoryRequest.Name req)
         (CreateRepositoryRequest.SourceProvider req)
         (CreateRepositoryRequest.SourceURL req) (now env)]
      (Encode StatusCreated
         (Json.Repository_
            (Repository.mk (gen_random_uuid env)
               (CreateRepositoryRequest.Name req)
               (CreateRepositoryRequest.SourceProvider req)
               (CreateRepositoryRequest.SourceURL req) (now env) None))).
Proof.
  intros Hout F1 Hid.
  rewrite (CreateRepository_valid env db r req decoded valid).
  cbv zeta. unfold round_trip. rewrite answered, F1.
  rewrite (not_true_false _ _ (exists_repository_by_source_url_spec db _) Hout).
  rewrite (proj2 (insert_repository_returning_id_Some env db _ _ _ _ _ _)
             (conj eq_refl (conj Hid eq_refl))).
  reflexivity.
Qed.

End CreateRepositoryStore.

Lemma source_urls_insert db row :
  repositories.source_url row
  ∈ source_urls
      {| database.repositories_tbl := database.repositories_tbl db ++ [row];
         database.replication_targets_tbl := database.replication_targets_tbl db |}.
Proof.
  unfold source_urls. simpl. rewrite map_app. apply elem_of_app. right.
  simpl. apply list_elem_of_here.
Qed.

(** C1. A request that passes validation and whose source_url is already in
    the store is answered 409 when the existence query is answered; a first
    request with a source_url not yet in the store is answered 201 when the
    store carries out both statements and the identifier it draws is free,
    and the same request repeated after it is answered 409. *)
Theorem C1_second_create_conflicts
    (env1 env2 : Env) (db : database.DB)
    (r : http.Request CreateRepositoryRequest.t)
    (req : CreateRepositoryRequest.t) :
  http.Decode r = Some req -> ~ violates req -> fault env1 0 = false ->
  (CreateRepositoryRequest.SourceURL req ∈ source_urls db ->
   let res := RepoHandler.CreateRepository env1 db r in
   http.Status (resp res) = http.StatusConflict /\ db_after res = db)
  /\ ((CreateRepositoryRequest.SourceURL req ∉ source_urls db) ->
      fault env1 1 = false -> (gen_random_uuid env1 ∉ repository_ids db) ->
      fault env2 0 = false ->
      let first := RepoHandler.CreateRepository env1 db r in
      let second := RepoHandler.CreateRepository env2 (db_after first) r in
      http.Status (resp first) = http.StatusCreated
      /\ http.Status (resp second) = http.StatusConflict).
Proof.
  intros D Hv F0. split.
  - intros Hin. cbv zeta.
    rewrite (CreateRepository_conflict env1 db r req D Hv F0 Hin).
    split; reflexivity.
  - intros Hout F1 Hid G0. cbv zeta.
    rewrite (CreateRepository_success env1 db r req D Hv F0 Hout F1 Hid).
    split; [reflexivity|]. simpl db_after.
    rewrite (CreateRepository_conflict env2 _ r req D Hv G0); [reflexivity|].
    apply (source_urls_insert db
             (repositories.mk (gen_random_uuid env1)
                (CreateRepositoryRequest.Name req)
                (CreateRepositoryRequest.SourceProvider req)
                (CreateRepositoryRequest.SourceURL req) (now env1))).
Qed.

Lemma C1_second_create_conflicts_witness :
  http.Status
    (resp (RepoHandler.CreateRepository (Fixtures.steady 3 "u3") Fixtures.one
             (Fixtures.post "" Fixtures.svc)))
  = http.StatusConflict
  /\ let first :=
       RepoHandler.CreateRepository (Fixtures.steady 1 "u1") Fixtures.empty
         (Fixtures.post "" Fixtures.svc) in
     http.Status (resp first) = http.StatusCreated
     /\ http.Status
          (resp (RepoHandler.CreateRepository (Fixtures.steady 2 "u2")
                   (db_after first) (Fixtures.post "" Fixtures.svc)))
        = http.StatusConflict.
Proof.
  split.
  - refine (proj1 (proj1 (C1_second_create_conflicts (Fixtures.steady 3 "u3")
              (Fixtures.steady 2 "u2") Fixtures.one
              (Fixtures.post "" Fixtures.svc) Fixtures.svc
              eq_refl svc_valid eq_refl) _)).
    apply exists_repository_by_source_url_spec. reflexivity.
  - refine (proj2 (C1_second_create_conflicts (Fixtures.steady 1 "u1")
              (Fixtures.steady 2 "u2") Fixtures.empty
              (Fixtures.post "" Fixtures.svc) Fixtures.svc
              eq_refl svc_valid eq_refl) _ eq_refl _ eq_refl).
    + apply (not_elem_of_by_eqb repositories.source_url). reflexivity.
    + apply (not_elem_of_by_eqb repositories.id). reflexivity.
Defined.

Lemma bitbucket_violates : violates Fixtures.bitbucket.
Proof.
  exists FSourceProvider. right. intros [H|[H|H]]; discriminate H.
Defined.

Lemma C3_validation_rejects_exactly_violations_witness :
  let res :=
    RepoHandler.CreateRepository (Fixtures.steady 1 "u1") Fixtures.empty
      (Fixtures.post "" Fixtures.bitbucket) in
  (http.Status (resp res) = http.StatusBadRequest /\ stmts res = [])
  /\ exists msg f,
       http.Body (resp res) = http.Text msg
       /\ named_fields msg = [f] /\ field_violated Fixtures.bitbucket f
       /\ stmts res = [] /\ db_after res = Fixtures.empty.
Proof.
  pose proof (C3_validation_rejects_exactly_violations (Fixtures.steady 1 "u1")
                Fixtures.empty (Fixtures.post "" Fixtures.bitbucket)
                Fixtures.bitbucket eq_refl) as [H1 H2].
  split.
  - exact (proj2 H1 bitbucket_violates).
  - exact (H2 bitbucket_violates).
Defined.

(** The three rejections the specification lists. *)
Example rejects_blank_name :
  RepoHandler.CreateRepository (Fixtures.steady 1 "u1") Fixtures.empty
    (Fixtures.post "" Fixtures.blank_name)
  = reply Fixtures.empty [] (http.Error "name is required" http.StatusBadRequest).
Proof. reflexivity. Qed.

Example rejects_bitbucket :
  RepoHandler.CreateRepository (Fixtures.steady 1 "u1") Fixtures.empty
    (Fixtures.post "" Fixtures.bitbucket)
  = reply Fixtures.empty []
      (http.Error "invalid source_provider. allowed: github, gitlab, gitea"
         http.StatusBadRequest).
Proof. reflexivity. Qed.

Example rejects_ftp :
  RepoHandler.CreateRepository (Fixtures.steady 1 "u1") Fixtures.empty
    (Fixtures.post "" Fixtures.ftp)
  = reply Fixtures.empty []
      (http.Error "source_url must start with https:// or ssh://"
         http.StatusBadRequest).
Proof. reflexivity. Qed.

Lemma json_field_id id n p u t ts :
  Json.field "id" (Json.Repository_ (Repository.mk id n p u t ts))
  = Some (JString id).
Proof. reflexivity. Qed.

(** C8 (as amended). A 201 answer of [CreateRepository] carries the full
    repository record: name, source_provider and source_url are those of the
    request, unchanged; the identifier is the one drawn for this request, it
    is not the identifier of any repository stored before and no later
    successful call on a store that still holds this repository returns it
    again; created_at is the clock reading of the request; the target list
    is empty, so the record is written without a targets field.  Nothing is
    said about two calls reading different clock values. *)
Theorem C8_created_repository_record
    (env : Env) (db : database.DB)
    (r : http.Request CreateRepositoryRequest.t) :
  let res := RepoHandler.CreateRepository env db r in
  http.Status (resp res) = http.StatusCreated ->
  exists req id,
    http.Decode r = Some req /\ ~ violates req
    /\ http.Body (resp res)
       = http.JSON
           (Json.Repository_
              (Repository.mk id (CreateRepositoryRequest.Name req)
                 (CreateRepositoryRequest.SourceProvider req)
                 (CreateRepositoryRequest.SourceURL req) (now env) None))
    /\ Json.field "targets"
         (Json.Repository_
            (Repository.mk id (CreateRepositoryRequest.Name req)
               (CreateRepositoryRequest.SourceProvider req)
               (CreateRepositoryRequest.SourceURL req) (now env) None))
       = None
    /\ (id ∉ repository_ids db)
    /\ database.repositories_tbl (db_after res)
       = database.repositories_tbl db
         ++ [repositories.mk id (CreateRepositoryRequest.Name req)
               (CreateRepositoryRequest.SourceProvider req)
               (CreateRepositoryRequest.SourceURL req) (now env)]
    /\ forall env' db' r' v',
         id ∈ repository_ids db' ->
         resp (RepoHandler.CreateRepository env' db' r')
         = http.Encode http.StatusCreated v' ->
         Json.field "id" v' <> Some (JString id).
Proof.
  intros res Hs. subst res.
  destruct (CreateRepository_created env db r Hs)
    as (req & D & Hv & _ & _ & _ & Hid & ->).
  exists req, (gen_random_uuid env).
  repeat (split; [first [assumption|reflexivity]|]).
  intros env' db' r' v' Hin Hr.
  assert (http.Status (resp (RepoHandler.CreateRepository env' db' r'))
          = http.StatusCreated) as Hs' by now rewrite Hr.
  destruct (CreateRepository_created env' db' r' Hs')
    as (req' & _ & _ & _ & _ & _ & Hid' & E).
  rewrite E in Hr. simpl in Hr. injection Hr as <-.
  rewrite json_field_id. intros [= Heq]. rewrite Heq in Hid'. contradiction.
Qed.

Lemma C8_created_repository_record_witness :
  exists req id,
    http.Decode (Fixtures.post "" Fixtures.svc) = Some req
    /\ http.Body
         (resp (RepoHandler.CreateRepository (Fixtures.steady 5 "u1")
                  Fixtures.empty (Fixtures.post "" Fixtures.svc)))
       = http.JSON
           (Json.Repository_
              (Repository.mk id (CreateRepositoryRequest.Name req)
                 (CreateRepositoryRequest.SourceProvider req)
                 (CreateRepositoryRequest.SourceURL req) 5 None))
    /\ (id ∉ repository_ids Fixtures.empty).
Proof.
  destruct (C8_created_repository_record (Fixtures.steady 5 "u1") Fixtures.empty
              (Fixtures.post "" Fixtures.svc) eq_refl)
    as (req & id & D & _ & B & _ & N & _).
  exists req, id. auto.
Defined.

(** Against C8 as stated: two successful calls that read the same clock
    value return different identifiers and the same creation timestamp. *)
Lemma C8_timestamps_can_coincide :
  let first :=
    RepoHandler.CreateRepository (Fixtures.steady 5 "u1") Fixtures.empty
      (Fixtures.post "" Fixtures.svc) in
  let second :=
    RepoHandler.CreateRepository (Fixtures.steady 5 "u2") (db_after first)
      (Fixtures.post "" Fixtures.lib) in
  exists v1 v2,
    resp first = http.Encode http.StatusCreated v1
    /\ resp second = http.Encode http.StatusCreated v2
    /\ Json.field "id" v1 <> Json.field "id" v2
    /\ Json.field "created_at" v1 = Json.field "created_at" v2.
Proof.
  eexists. eexists.
  split; [reflexivity|]. split; [reflexivity|]. split; [discriminate|reflexivity].
Qed.

(** C10. When [CreateRepository] or [CreateTarget] answers with any status
    other than 201, the store is exactly what it was before the request. *)
Theorem C10_store_unchanged_unless_created
    (env : Env) (db : database.DB)
    (rr : http.Request CreateRepositoryRequest.t)
    (rt : http.Request CreateTargetRequest.t) :
  (http.Status (resp (RepoHandler.CreateRepository env db rr))
   <> http.StatusCreated ->
   db_after (RepoHandler.CreateRepository env db rr) = db)
  /\ (http.Status (resp (TargetHandler.CreateTarget env db rt))
      <> http.StatusCreated ->
      db_after (TargetHandler.CreateTarget env db rt) = db).
Proof.
  split.
  - apply CreateRepository_not_created.
  - apply CreateTarget_not_created.
Qed.

Lemma C10_store_unchanged_unless_created_witness :
  db_after (RepoHandler.CreateRepository (Fixtures.steady 3 "u3") Fixtures.one
              (Fixtures.post "" Fixtures.svc)) = Fixtures.one
  /\ db_after (TargetHandler.CreateTarget (Fixtures.failing_first 3 "u3")
                 Fixtures.one (Fixtures.post "r1" Fixtures.mirror))
     = Fixtures.one.
Proof.
  pose proof (C10_store_unchanged_unless_created (Fixtures.steady 3 "u3")
                Fixtures.one (Fixtures.post "" Fixtures.svc)
                (Fixtures.post "r1" Fixtures.mirror)) as [H1 _].
  pose proof (C10_store_unchanged_unless_created (Fixtures.failing_first 3 "u3")
                Fixtures.one (Fixtures.post "" Fixtures.svc)
                (Fixtures.post "r1" Fixtures.mirror)) as [_ H2].
  split; [apply H1 | apply H2]; vm_compute; discriminate.
Defined.

(** ** The claims about [CreateTarget] *)

Section CreateTargetStore.
Import database database_sql http.
Variables (env : Env) (db : DB).
Variables (r : Request CreateTargetRequest.t) (req : CreateTargetRequest.t).
Hypothesis decoded : Decode r = Some req.
Hypothesis valid : ~ target_violates req.
Hypothesis answered : fault env 0 = false.
Hypothesis known : path_id r ∈ repository_ids db.

Lemma CreateTarget_conflict :
  fault env 1 = false ->
  (path_id r, CreateTargetRequest.RemoteURL req) ∈ target_keys db ->
  TargetHandler.CreateTarget env db r
  = reply db
      [SelectExistsRepositoryByID (path_id r);
       SelectExistsTarget (path_id r) (CreateTargetRequest.RemoteURL req)]
      (Error "target with this remote_url already exists for this repository"
         StatusConflict).
Proof.
  intros F1 Hin.
  rewrite (CreateTarget_valid env db r req answered known decoded valid).
  cbv zeta. unfold round_trip. rewrite F1.
  apply exists_target_spec in Hin. now rewrite Hin.
Qed.

Lemma CreateTarget_success :
  fault env 1 = false -> fault env 2 = false ->
  ((path_id r, CreateTargetRequest.RemoteURL req) ∉ target_keys db) ->
  (gen_random_uuid env ∉ target_ids db) ->
  TargetHandler.CreateTarget env db r
  = reply
      {| repositories_tbl := repositories_tbl db;
         replication_targets_tbl :=
           replication_targets_tbl db
           ++ [replication_targets.mk (gen_random_uuid env) (path_id r)
                 (CreateTargetRequest.Provider req)
                 (CreateTargetRequest.RemoteURL req) (now env)] |}
      [SelectExistsRepositoryByID (path_id r);
       SelectExistsTarget (path_id r) (CreateTargetRequest.RemoteURL req);
       InsertTargetReturningID (path_id r) (CreateTargetRequest.Provider req)
         (CreateTargetRequest.RemoteURL req) (now env)]
      (Encode StatusCreated
         (Json.Target_
            (Target.mk (gen_random_uuid env) (path_id r)
               (CreateTargetRequest.Provider req)
               (CreateTargetRequest.RemoteURL req) (now env)))).
Proof.
  intros F1 F2 Hout Hid.
  rewrite (CreateTarget_valid env db r req answered known decoded valid).
  cbv zeta. unfold round_trip. rewrite F1, F2.
  rewrite (not_true_false _ _ (exists_target_spec db _ _) Hout).
  rewrite (proj2 (insert_target_returning_id_Some env db _ _ _ _ _ _)
             (conj eq_refl (conj Hid (conj known eq_refl)))).
  reflexivity.
Qed.

End CreateTargetStore.

Lemma target_keys_insert db row :
  target_keys
    {| database.repositories_tbl := database.repositories_tbl db;
       database.replication_targets_tbl :=
         database.replication_targets_tbl db ++ [row] |}
  = target_keys db
    ++ [(replication_targets.repository_id row, replication_targets.remote_url row)].
Proof. unfold target_keys. simpl. now rewrite map_app. Qed.

Lemma target_ids_insert db row :
  target_ids
    {| database.repositories_tbl := database.repositories_tbl db;
       database.replication_targets_tbl :=
         database.replication_targets_tbl db ++ [row] |}
  = target_ids db ++ [replication_targets.id row].
Proof. unfold target_ids. simpl. now rewrite map_app. Qed.

(** C2. When the repository identifier of the path is not the identifier of
    a stored repository, [CreateTarget] answers 404 "repository not found"
    whatever the body is (undecodable or invalid bodies included) and
    whatever the store does; the only statement it sends is the existence
    query, and no row is inserted. *)
Theorem C2_unknown_repository_not_found
    (env : Env) (db : database.DB) (r : http.Request CreateTargetRequest.t) :
  (path_id r ∉ repository_ids db) ->
  let res := TargetHandler.CreateTarget env db r in
  resp res = http.Error "repository not found" http.StatusNotFound
  /\ stmts res = [SelectExistsRepositoryByID (path_id r)]
  /\ db_after res = db.
Proof.
  intros N res. subst res.
  rewrite (CreateTarget_no_repository env db r (or_intror N)).
  repeat split.
Qed.

Lemma C2_unknown_repository_not_found_witness :
  resp (TargetHandler.CreateTarget (Fixtures.steady 3 "u3") Fixtures.one
          {| http.Vars := {[ "id" := "r9" ]}; http.Decode := None |})
  = http.Error "repository not found" http.StatusNotFound.
Proof.
  refine (proj1 (C2_unknown_repository_not_found (Fixtures.steady 3 "u3")
                   Fixtures.one
                   {| http.Vars := {[ "id" := "r9" ]}; http.Decode := None |} _)).
  apply (not_elem_of_by_eqb repositories.id). reflexivity.
Defined.

(** C6, at the failing input: the repository "r1" is in the store, the
    existence query of [CreateTarget] fails, and the answer is 404
    "repository not found" rather than a 500. *)
Theorem C6_failed_existence_query_reported_not_found :
  "r1" ∈ repository_ids Fixtures.one
  /\ fault (Fixtures.failing_first 3 "u3") 0 = true
  /\ resp (TargetHandler.CreateTarget (Fixtures.failing_first 3 "u3")
             Fixtures.one (Fixtures.post "r1" Fixtures.mirror))
     = http.Error "repository not found" http.StatusNotFound.
Proof.
  split; [|split; reflexivity].
  apply exists_repository_by_id_spec. reflexivity.
Qed.

(** The same request is answered 201 when the query does not fail. *)
Example existence_query_answered :
  http.Status
    (resp (TargetHandler.CreateTarget (Fixtures.steady 3 "u3") Fixtures.one
             (Fixtures.post "r1" Fixtures.mirror)))
  = http.StatusCreated.
Proof. reflexivity. Qed.

(** Every other failed statement of the two create handlers is answered
    500: the source_url query and the insert of [CreateRepository], the
    target query and the insert of [CreateTarget]. *)
Lemma other_failed_statements_answered_500
    (env : Env) (db : database.DB)
    (rr : http.Request CreateRepositoryRequest.t)
    (rt : http.Request CreateTargetRequest.t)
    (req : CreateRepositoryRequest.t) (treq : CreateTargetRequest.t) :
  http.Decode rr = Some req -> ~ violates req ->
  http.Decode rt = Some treq -> ~ target_violates treq ->
  path_id rt ∈ repository_ids db ->
  (fault env 0 = true ->
   http.Status (resp (RepoHandler.CreateRepository env db rr))
   = http.StatusInternalServerError)
  /\ (fault env 0 = false -> fault env 1 = true ->
      (CreateRepositoryRequest.SourceURL req ∉ source_urls db) ->
      http.Status (resp (RepoHandler.CreateRepository env db rr))
      = http.StatusInternalServerError)
  /\ (fault env 0 = false -> fault env 1 = true ->
      http.Status (resp (TargetHandler.CreateTarget env db rt))
      = http.StatusInternalServerError)
  /\ (fault env 0 = false -> fault env 1 = false -> fault env 2 = true ->
      ((path_id rt, CreateTargetRequest.RemoteURL treq) ∉ target_keys db) ->
      http.Status (resp (TargetHandler.CreateTarget env db rt))
      = http.StatusInternalServerError).
Proof.
  intros D Hv Dt Hvt K. repeat split.
  - intros F0. rewrite (CreateRepository_valid env db rr req D Hv). cbv zeta.
    unfold database.round_trip. now rewrite F0.
  - intros F0 F1 N. rewrite (CreateRepository_valid env db rr req D Hv).
    cbv zeta. unfold database.round_trip. rewrite F0, F1.
    now rewrite (not_true_false _ _ (exists_repository_by_source_url_spec db _) N).
  - intros F0 F1. rewrite (CreateTarget_valid env db rt treq F0 K Dt Hvt).
    cbv zeta. unfold database.round_trip. now rewrite F1.
  - intros F0 F1 F2 N. rewrite (CreateTarget_valid env db rt treq F0 K Dt Hvt).
    cbv zeta. unfold database.round_trip. rewrite F1, F2.
    now rewrite (not_true_false _ _ (exists_target_spec db _ _) N).
Qed.

(** C4. Of two [CreateTarget] calls in sequence with the same remote_url:
    when they name the same repository and the first is answered 201, the
    second (with an allowed provider, on a store that answers its two
    queries) is answered 409 and inserts nothing; when they name different
    stored repositories, neither of which has the URL yet, both are answered
    201 (on a store that carries out the statements and draws free
    identifiers). *)
Theorem C4_target_uniqueness_per_repository
    (env1 env2 : Env) (db : database.DB)
    (r1 r2 : http.Request CreateTargetRequest.t)
    (req1 req2 : CreateTargetRequest.t) :
  http.Decode r1 = Some req1 -> http.Decode r2 = Some req2 ->
  CreateTargetRequest.RemoteURL req2 = CreateTargetRequest.RemoteURL req1 ->
  allowed_provider (CreateTargetRequest.Provider req2) ->
  let first := TargetHandler.CreateTarget env1 db r1 in
  let second := TargetHandler.CreateTarget env2 (db_after first) r2 in
  (path_id r2 = path_id r1 ->
   http.Status (resp first) = http.StatusCreated ->
   fault env2 0 = false -> fault env2 1 = false ->
   http.Status (resp second) = http.StatusConflict
   /\ db_after second = db_after first)
  /\ (path_id r2 <> path_id r1 ->
      path_id r1 ∈ repository_ids db -> path_id r2 ∈ repository_ids db ->
      ~ target_violates req1 ->
      ((path_id r1, CreateTargetRequest.RemoteURL req1) ∉ target_keys db) ->
      ((path_id r2, CreateTargetRequest.RemoteURL req1) ∉ target_keys db) ->
      reliable env1 -> reliable env2 ->
      (gen_random_uuid env1 ∉ target_ids db) ->
      (gen_random_uuid env2 ∉ target_ids db) ->
      gen_random_uuid env2 <> gen_random_uuid env1 ->
      http.Status (resp first) = http.StatusCreated
      /\ http.Status (resp second) = http.StatusCreated).
Proof.
  intros D1 D2 U A2 first second. subst first second. split.
  - intros P Hs G0 G1.
    destruct (CreateTarget_created env1 db r1 Hs)
      as (req & D & Hv & _ & _ & _ & K & _ & _ & ->).
    rewrite D1 in D. injection D as <-. simpl db_after.
    assert (~ target_violates req2) as Hv2.
    { intros [H|H]; [contradiction|]. apply Hv. right. now rewrite <- U. }
    rewrite (CreateTarget_conflict env2 _ r2 req2 D2 Hv2 G0);
      [split; reflexivity | rewrite P; exact K | exact G1 |].
    rewrite target_keys_insert. apply elem_of_app. right. simpl.
    rewrite P, U. apply list_elem_of_here.
  - intros P K1 K2 Hv1 N1 N2 R1 R2 I1 I2 I12.
    rewrite (CreateTarget_success env1 db r1 req1 D1 Hv1 (R1 _) K1 (R1 _) (R1 _)
               N1 I1).
    split; [reflexivity|]. simpl db_after.
    assert (~ target_violates req2) as Hv2.
    { intros [H|H]; [contradiction|]. apply Hv1. right. now rewrite <- U. }
    rewrite (CreateTarget_success env2 _ r2 req2 D2 Hv2 (R2 _));
      [reflexivity | exact K2 | exact (R2 _) | exact (R2 _) | |].
    + rewrite target_keys_insert, U. simpl. intros H.
      apply elem_of_app in H as [H|H]; [contradiction|].
      apply list_elem_of_singleton in H. congruence.
    + rewrite target_ids_insert. simpl. intros H.
      apply elem_of_app in H as [H|H]; [contradiction|].
      apply list_elem_of_singleton in H. congruence.
Qed.

Lemma steady_reliable t id : reliable (Fixtures.steady t id).
Proof. intros k. reflexivity. Defined.

Lemma C4_target_uniqueness_per_repository_witness :
  let first :=
    TargetHandler.CreateTarget (Fixtures.steady 11 "t3") Fixtures.two
      (Fixtures.post "r1" Fixtures.mirror) in
  http.Status (resp first) = http.StatusCreated
  /\ http.Status
       (resp (TargetHandler.CreateTarget (Fixtures.steady 12 "t4")
                (db_after first) (Fixtures.post "r1" Fixtures.mirror)))
     = http.StatusConflict
  /\ http.Status
       (resp (TargetHandler.CreateTarget (Fixtures.steady 12 "t4")
                (db_after first) (Fixtures.post "r2" Fixtures.mirror)))
     = http.StatusCreated.
Proof.
  assert (allowed_provider (CreateTargetRequest.Provider Fixtures.mirror)) as A
    by (right; right; reflexivity).
  pose proof (C4_target_uniqueness_per_repository (Fixtures.steady 11 "t3")
                (Fixtures.steady 12 "t4") Fixtures.two
                (Fixtures.post "r1" Fixtures.mirror)
                (Fixtures.post "r1" Fixtures.mirror)
                Fixtures.mirror Fixtures.mirror eq_refl eq_refl eq_refl A)
    as [Same _].
  pose proof (C4_target_uniqueness_per_repository (Fixtures.steady 11 "t3")
                (Fixtures.steady 12 "t4") Fixtures.two
                (Fixtures.post "r1" Fixtures.mirror)
                (Fixtures.post "r2" Fixtures.mirror)
                Fixtures.mirror Fixtures.mirror eq_refl eq_refl eq_refl A)
    as [_ Other].
  split; [reflexivity|]. split.
  - exact (proj1 (Same eq_refl eq_refl eq_refl eq_refl)).
  - refine (proj2 (Other _ _ _ mirror_valid _ _ (steady_reliable _ _)
                     (steady_reliable _ _) _ _ _)).
    + vm_compute. discriminate.
    + apply exists_repository_by_id_spec. reflexivity.
    + apply exists_repository_by_id_spec. reflexivity.
    + intros H. apply exists_target_spec in H. vm_compute in H. discriminate.
    + intros H. apply exists_target_spec in H. vm_compute in H. discriminate.
    + apply (not_elem_of_by_eqb replication_targets.id). reflexivity.
    + apply (not_elem_of_by_eqb replication_targets.id). reflexivity.
    + discriminate.
Defined.

(** ** [ListRepositories] *)

Lemma append_all_cons {A} (s : slice A) (x : A) (l : list A) :
  append_all (append s x) l = append_all s (x :: l).
Proof.
  destruct l as [|y l]; destruct s as [s|]; simpl; try reflexivity.
  now rewrite <- app_assoc.
Qed.

Lemma collect_targets_spec rows : forall acc,
  RepoHandler.collect_targets rows acc
  = append_all acc (map RepoHandler.scan_target rows).
Proof.
  induction rows as [|row rows IH]; intros acc; [reflexivity|].
  simpl RepoHandler.collect_targets. rewrite IH. apply append_all_cons.
Qed.

Section Listing.
Import database http.
Variables (env : Env) (db : DB).

(** The loop either stops at a failed targets query with a 500, or
    appends every row with its targets. *)
Lemma each_repository_spec rows : forall k repos sent,
  (exists sent',
      RepoHandler.each_repository env db k rows repos sent
      = (sent', inl (Error "failed to fetch targets" StatusInternalServerError)))
  \/ RepoHandler.each_repository env db k rows repos sent
     = (sent ++ target_queries rows,
        inr (append_all repos (map (listed db) rows))).
Proof.
  induction rows as [|row rows IH]; intros k repos sent.
  - right. simpl. now rewrite app_nil_r.
  - simpl RepoHandler.each_repository. unfold round_trip.
    destruct (fault env k); [left; eexists; reflexivity|].
    match goal with
    | |- context [RepoHandler.each_repository env db (S k) rows ?a ?b] =>
        destruct (IH (S k) a b) as [[sent' H]|H]; rewrite H
    end.
    + left. eexists; reflexivity.
    + right. rewrite append_all_cons. simpl. now rewrite <- app_assoc.
Qed.

Lemma each_repository_reliable rows : forall k repos sent,
  reliable env ->
  RepoHandler.each_repository env db k rows repos sent
  = (sent ++ target_queries rows,
     inr (append_all repos (map (listed db) rows))).
Proof.
  intros k repos sent R. revert k repos sent.
  induction rows as [|row rows IH]; intros k repos sent.
  - simpl. now rewrite app_nil_r.
  - simpl RepoHandler.each_repository. unfold round_trip. rewrite (R k).
    rewrite IH, append_all_cons. simpl. now rewrite <- app_assoc.
Qed.

Lemma encode_listing rows :
  Json.slice_ Json.Repository_
    (match append_all None (map (listed db) rows) with
     | None => Some []
     | Some l => Some l
     end)
  = JArray (map (fun row => Json.Repository_ (listed db row)) rows).
Proof. destruct rows; simpl; [reflexivity|]. now rewrite map_map. Qed.

Lemma ListRepositories_reads_only :
  db_after (RepoHandler.ListRepositories env db) = db.
Proof.
  unfold RepoHandler.ListRepositories, round_trip.
  destruct (fault env 0); [reflexivity|].
  destruct (RepoHandler.each_repository _ _ _ _ _ _) as [sent [failure|repos]];
    reflexivity.
Qed.

Lemma ListRepositories_ok :
  Status (resp (RepoHandler.ListRepositories env db)) = StatusOK ->
  resp (RepoHandler.ListRepositories env db) = Encode StatusOK (listing db).
Proof.
  unfold RepoHandler.ListRepositories, round_trip.
  destruct (fault env 0); [discriminate|].
  destruct (each_repository_spec (select_repositories db) 1 None
              [SelectRepositoriesOrderByCreatedAtDesc]) as [[sent' H]|H];
    rewrite H; [discriminate|].
  intros _. simpl resp. unfold listing. rewrite <- encode_listing.
  destruct (append_all None _); reflexivity.
Qed.

Lemma ListRepositories_reliable :
  reliable env ->
  resp (RepoHandler.ListRepositories env db) = Encode StatusOK (listing db).
Proof.
  intros R. unfold RepoHandler.ListRepositories, round_trip. rewrite (R 0%nat).
  rewrite (each_repository_reliable _ _ _ _ R). simpl resp.
  unfold listing. rewrite <- encode_listing.
  destruct (append_all None _); reflexivity.
Qed.

End Listing.

#[local] Instance created_desc_total : Total database.created_desc.
Proof. intros a b. unfold database.created_desc. lia. Qed.

#[local] Instance created_desc_trans : Transitive database.created_desc.
Proof. intros a b c. unfold database.created_desc. lia. Qed.

Lemma select_targets_spec db i t :
  t ∈ database.select_targets db i
  <-> t ∈ database.replication_targets_tbl db
      /\ replication_targets.repository_id t = i.
Proof.
  unfold database.select_targets.
  rewrite !list_elem_of_In, List.filter_In, String.eqb_eq. reflexivity.
Qed.

Lemma listed_fields db row :
  Json.field "id" (Json.Repository_ (listed db row))
  = Some (JString (repositories.id row))
  /\ Json.field "created_at" (Json.Repository_ (listed db row))
     = Some (JTime (repositories.created_at row))
  /\ Json.field "targets" (Json.Repository_ (listed db row))
     = match database.select_targets db (repositories.id row) with
       | [] => None
       | ts => Some (JArray (map (fun t => Json.Target_ (RepoHandler.scan_target t)) ts))
       end.
Proof.
  unfold listed. rewrite collect_targets_spec.
  split; [reflexivity|]. split; [reflexivity|].
  destruct (database.select_targets db (repositories.id row)) as [|t ts];
    [reflexivity|].
  simpl. now rewrite map_map.
Qed.

Lemma Forall2_map_r {A B} (P : A -> B -> Prop) (f : A -> B) (l : list A) :
  (forall x, P x (f x)) -> Forall2 P l (map f l).
Proof. intros H. induction l; simpl; constructor; auto. Qed.

(** C5 (as amended). In a 200 answer of [ListRepositories] there is one
    object per repository row.  A repository with targets carries, under
    targets, the array of all the rows of replication_targets whose
    repository_id is its identifier; a repository without targets carries
    no targets field at all.  A store that fails no statement gives the 200
    answer. *)
Theorem C5_targets_attached_or_omitted (env : Env) (db : database.DB) :
  let res := RepoHandler.ListRepositories env db in
  (reliable env -> http.Status (resp res) = http.StatusOK)
  /\ (http.Status (resp res) = http.StatusOK ->
      exists items,
        http.Body (resp res) = http.JSON (JArray items)
        /\ Forall2
             (fun row item =>
                Json.field "id" item = Some (JString (repositories.id row))
                /\ Json.field "targets" item
                   = match database.select_targets db (repositories.id row) with
                     | [] => None
                     | ts =>
                         Some (JArray
                                 (map (fun t => Json.Target_ (RepoHandler.scan_target t))
                                    ts))
                     end
                /\ forall t,
                     t ∈ database.select_targets db (repositories.id row)
                     <-> t ∈ database.replication_targets_tbl db
                         /\ replication_targets.repository_id t
                            = repositories.id row)
             (database.select_repositories db) items).
Proof.
  intros res. subst res. split.
  - intros R. now rewrite (ListRepositories_reliable env db R).
  - intros Hs. rewrite (ListRepositories_ok env db Hs).
    eexists. split; [reflexivity|].
    apply Forall2_map_r. intros row.
    destruct (listed_fields db row) as (Hi & _ & Ht).
    split; [exact Hi|]. split; [exact Ht|].
    intros t. apply select_targets_spec.
Qed.

Lemma C5_targets_attached_or_omitted_witness :
  http.Status (resp (RepoHandler.ListRepositories (Fixtures.steady 1 "u1")
                       Fixtures.two)) = http.StatusOK
  /\ exists items,
       http.Body (resp (RepoHandler.ListRepositories (Fixtures.steady 1 "u1")
                          Fixtures.two)) = http.JSON (JArray items)
       /\ length items = 2%nat.
Proof.
  pose proof (C5_targets_attached_or_omitted (Fixtures.steady 1 "u1")
                Fixtures.two) as [H1 H2].
  split; [exact (H1 (steady_reliable _ _))|].
  destruct (H2 eq_refl) as (items & B & F).
  exists items. split; [exact B|].
  apply Forall2_length in F. rewrite <- F. reflexivity.
Defined.

(** Against C5 as stated: a listed repository without targets has no
    targets field, where an explicitly present empty array is claimed. *)
Lemma C5_no_targets_field_omitted :
  exists item,
    resp (RepoHandler.ListRepositories (Fixtures.steady 1 "u1") Fixtures.one)
    = http.Encode http.StatusOK (JArray [item])
    /\ database.select_targets Fixtures.one "r1" = []
    /\ Json.field "id" item = Some (JString "r1")
    /\ Json.field "targets" item = None
    /\ Json.field "targets" item <> Some (JArray []).
Proof.
  eexists. split; [reflexivity|]. repeat split. discriminate.
Qed.

(** The listing of the store with two repositories: the later one first,
    the targets of "r1" attached, no targets field for "r2". *)
Example listing_two :
  resp (RepoHandler.ListRepositories (Fixtures.steady 1 "u1") Fixtures.two)
  = http.Encode http.StatusOK
      (JArray
         [JObject [("id", JString "r2"); ("name", JString "lib");
                   ("source_provider", JString "gitlab");
                   ("source_url", JString "ssh://gitlab.com/org/lib");
                   ("created_at", JTime 9)];
          JObject [("id", JString "r1"); ("name", JString "svc");
                   ("source_provider", JString "github");
                   ("source_url", JString "https://github.com/org/svc");
                   ("created_at", JTime 7);
                   ("targets",
                    JArray
                      [JObject [("id", JString "t1");
                                ("repository_id", JString "r1");
                                ("provider", JString "gitlab");
                                ("remote_url", JString "https://gitlab.com/m/svc");
                                ("created_at", JTime 8)];
                       JObject [("id", JString "t2");
                                ("repository_id", JString "r1");
                                ("provider", JString "gitea");
                                ("remote_url", JString "ssh://gitea.example/m/svc");
                                ("created_at", JTime 10)]])]]).
Proof. reflexivity. Qed.

(** C7. A 200 answer of [ListRepositories] is the array of all the stored
    repositories, by creation timestamp descending; a store that fails no
    statement gives that answer; and on a store without repositories whose
    query is answered, the answer is 200 with the empty array, not null. *)
Theorem C7_listing_order_and_empty_array (env : Env) (db : database.DB) :
  let res := RepoHandler.ListRepositories env db in
  (reliable env -> http.Status (resp res) = http.StatusOK)
  /\ (http.Status (resp res) = http.StatusOK ->
      exists rows items,
        resp res = http.Encode http.StatusOK (JArray items)
        /\ rows ≡ₚ database.repositories_tbl db
        /\ StronglySorted
             (fun a b => repositories.created_at b <= repositories.created_at a)
             rows
        /\ Forall2
             (fun row item =>
                Json.field "id" item = Some (JString (repositories.id row))
                /\ Json.field "created_at" item
                   = Some (JTime (repositories.created_at row)))
             rows items)
  /\ (database.repositories_tbl db = [] -> fault env 0 = false ->
      resp res = http.Encode http.StatusOK (JArray [])
      /\ http.Body (resp res) <> http.JSON JNull).
Proof.
  intros res. subst res. split; [|split].
  - intros R. now rewrite (ListRepositories_reliable env db R).
  - intros Hs. rewrite (ListRepositories_ok env db Hs).
    exists (database.select_repositories db). eexists.
    split; [reflexivity|]. split; [apply merge_sort_Permutation|].
    split; [apply (StronglySorted_merge_sort database.created_desc)|].
    apply Forall2_map_r. intros row.
    destruct (listed_fields db row) as (Hi & Hc & _). auto.
  - intros E F. unfold RepoHandler.ListRepositories, database.round_trip,
      database.select_repositories.
    rewrite F, E. split; [reflexivity|discriminate].
Qed.

Lemma C7_listing_order_and_empty_array_witness :
  resp (RepoHandler.ListRepositories (Fixtures.steady 1 "u1") Fixtures.empty)
  = http.Encode http.StatusOK (JArray [])
  /\ exists rows items,
       resp (RepoHandler.ListRepositories (Fixtures.steady 1 "u1") Fixtures.two)
       = http.Encode http.StatusOK (JArray items)
       /\ StronglySorted
            (fun a b => repositories.created_at b <= repositories.created_at a)
            rows
       /\ length rows = 2%nat.
Proof.
  split.
  - exact (proj1 (proj2 (proj2 (C7_listing_order_and_empty_array
                                  (Fixtures.steady 1 "u1") Fixtures.empty))
                    eq_refl eq_refl)).
  - destruct (proj1 (proj2 (C7_listing_order_and_empty_array
                              (Fixtures.steady 1 "u1") Fixtures.two)) eq_refl)
      as (rows & items & B & P & S & _).
    exists rows, items. split; [exact B|]. split; [exact S|].
    apply Permutation_length in P. exact P.
Defined.

(** Without the nil check of the handler the empty listing would be null. *)
Example nil_slice_is_null :
  Json.slice_ Json.Repository_ None = JNull
  /\ Json.slice_ Json.Repository_ (Some []) = JArray [].
Proof. split; reflexivity. Qed.

(** ** The facade and the single handler *)

Lemma collect_targets_same rows : forall acc,
  MonolithicHandler.collect_targets rows acc
  = RepoHandler.collect_targets rows acc.
Proof. induction rows as [|row rows IH]; intros acc; simpl; auto. Qed.

Lemma each_repository_same env db rows : forall k repos sent,
  MonolithicHandler.each_repository env db k rows repos sent
  = RepoHandler.each_repository env db k rows repos sent.
Proof.
  induction rows as [|row rows IH]; intros k repos sent; [reflexivity|].
  simpl. destruct (database.round_trip env k _) as [targetRows|]; [|reflexivity].
  rewrite collect_targets_same. apply IH.
Qed.

(** Follow every branch of the two handlers side by side. *)
Ltac branches :=
  repeat (simpl;
          match goal with
          | |- context [if ?b then _ else _] => destruct b
          | |- context [match ?x with Some _ => _ | None => _ end] => destruct x
          end);
  simpl; repeat split.

(** C9. With the same store, the same request, the same failing round
    trips, the same clock reading and the same identifier drawn (by
    [uuid.New()] in the one, by the column default in the other), the facade
    and the single handler write the same response and leave the same store,
    for [CreateRepository], [ListRepositories] and [CreateTarget]; they send
    the same number of statements. *)
Theorem C9_facade_equals_single_handler
    (env : Env) (db : database.DB)
    (rr : http.Request CreateRepositoryRequest.t)
    (rt : http.Request CreateTargetRequest.t) :
  uuid_New env = gen_random_uuid env ->
  (resp (Handler.CreateRepository env db rr)
   = resp (MonolithicHandler.CreateRepository env db rr)
   /\ db_after (Handler.CreateRepository env db rr)
      = db_after (MonolithicHandler.CreateRepository env db rr)
   /\ length (stmts (Handler.CreateRepository env db rr))
      = length (stmts (MonolithicHandler.CreateRepository env db rr)))
  /\ Handler.ListRepositories env db = MonolithicHandler.ListRepositories env db
  /\ (resp (Handler.CreateTarget env db rt)
      = resp (MonolithicHandler.CreateTarget env db rt)
      /\ db_after (Handler.CreateTarget env db rt)
         = db_after (MonolithicHandler.CreateTarget env db rt)
      /\ length (stmts (Handler.CreateTarget env db rt))
         = length (stmts (MonolithicHandler.CreateTarget env db rt))).
Proof.
  intros U. split; [|split].
  - unfold Handler.CreateRepository, RepoHandler.CreateRepository,
      MonolithicHandler.CreateRepository,
      database_sql.insert_repository_returning_id, database.round_trip.
    rewrite <- U.
    destruct (http.Decode rr) as [req|]; [simpl|repeat split].
    destruct (database.insert_repository db _); branches.
  - unfold Handler.ListRepositories, RepoHandler.ListRepositories,
      MonolithicHandler.ListRepositories.
    destruct (database.round_trip env 0 _) as [rows|]; [|reflexivity].
    now rewrite <- (each_repository_same env db rows 1 None
                      [SelectRepositoriesOrderByCreatedAtDesc]).
  - unfold Handler.CreateTarget, TargetHandler.CreateTarget,
      MonolithicHandler.CreateTarget,
      database_sql.insert_target_returning_id, database.round_trip.
    rewrite <- U.
    destruct (http.Decode rt) as [req|]; [simpl|branches].
    destruct (database.insert_target db _); branches.
Qed.

Lemma C9_facade_equals_single_handler_witness :
  resp (Handler.CreateRepository (Fixtures.steady 5 "u1") Fixtures.one
          (Fixtures.post "" Fixtures.lib))
  = resp (MonolithicHandler.CreateRepository (Fixtures.steady 5 "u1")
            Fixtures.one (Fixtures.post "" Fixtures.lib))
  /\ db_after (Handler.CreateTarget (Fixtures.steady 5 "u1") Fixtures.one
                 (Fixtures.post "r1" Fixtures.mirror))
     = db_after (MonolithicHandler.CreateTarget (Fixtures.steady 5 "u1")
                   Fixtures.one (Fixtures.post "r1" Fixtures.mirror)).
Proof.
  pose proof (C9_facade_equals_single_handler (Fixtures.steady 5 "u1")
                Fixtures.one (Fixtures.post "" Fixtures.lib)
                (Fixtures.post "r1" Fixtures.mirror) eq_refl)
    as ((H1 & _) & _ & (_ & H2 & _)).
  split; assumption.
Defined.

(** * Further properties of the handlers *)

(** ** The store stays consistent *)

Lemma repository_ids_insert db row :
  repository_ids
    {| database.repositories_tbl := database.repositories_tbl db ++ [row];
       database.replication_targets_tbl := database.replication_targets_tbl db |}
  = repository_ids db ++ [repositories.id row].
Proof. unfold repository_ids. simpl. now rewrite map_app. Qed.

Lemma source_urls_insert_eq db row :
  source_urls
    {| database.repositories_tbl := database.repositories_tbl db ++ [row];
       database.replication_targets_tbl := database.replication_targets_tbl db |}
  = source_urls db ++ [repositories.source_url row].
Proof. unfold source_urls. simpl. now rewrite map_app. Qed.

Lemma NoDup_snoc {A} (l : list A) (x : A) :
  NoDup l -> x ∉ l -> NoDup (l ++ [x]).
Proof.
  intros Hl Hx. apply NoDup_app. split; [assumption|]. split.
  - intros y Hy Hin. apply list_elem_of_singleton in Hin. now subst.
  - apply NoDup_singleton.
Qed.

Lemma consistent_insert_repository db row :
  consistent db ->
  repositories.id row ∉ repository_ids db ->
  repositories.source_url row ∉ source_urls db ->
  consistent
    {| database.repositories_tbl := database.repositories_tbl db ++ [row];
       database.replication_targets_tbl := database.replication_targets_tbl db |}.
Proof.
  intros [H1 H2 H3 H4 H5] Hid Hurl. split.
  - rewrite repository_ids_insert. now apply NoDup_snoc.
  - exact H2.
  - intros t Ht. rewrite repository_ids_insert. apply elem_of_app. left.
    now apply H3.
  - rewrite source_urls_insert_eq. now apply NoDup_snoc.
  - exact H5.
Qed.

Lemma consistent_insert_target db row :
  consistent db ->
  replication_targets.id row ∉ target_ids db ->
  replication_targets.repository_id row ∈ repository_ids db ->
  (replication_targets.repository_id row, replication_targets.remote_url row)
    ∉ target_keys db ->
  consistent
    {| database.repositories_tbl := database.repositories_tbl db;
       database.replication_targets_tbl :=
         database.replication_targets_tbl db ++ [row] |}.
Proof.
  intros [H1 H2 H3 H4 H5] Hid Hrepo Hkey. split.
  - exact H1.
  - rewrite target_ids_insert. now apply NoDup_snoc.
  - intros t Ht. simpl in Ht. apply elem_of_app in Ht as [Ht|Ht].
    + now apply H3.
    + apply list_elem_of_singleton in Ht. now subst.
  - exact H4.
  - rewrite target_keys_insert. now apply NoDup_snoc.
Qed.

Lemma empty_consistent : consistent Fixtures.empty.
Proof. split; try apply NoDup_nil_2. intros t Ht. inversion Ht. Qed.

Lemma CreateRepository_keeps_consistent env db r :
  consistent db -> consistent (db_after (RepoHandler.CreateRepository env db r)).
Proof.
  intros C.
  destruct (Z.eq_dec
              (http.Status (resp (RepoHandler.CreateRepository env db r)))
              http.StatusCreated) as [Hs|Hs].
  - destruct (CreateRepository_created env db r Hs)
      as (req & _ & _ & _ & _ & Hurl & Hid & ->).
    simpl db_after. now apply consistent_insert_repository.
  - now rewrite (CreateRepository_not_created env db r Hs).
Qed.

Lemma CreateTarget_keeps_consistent env db r :
  consistent db -> consistent (db_after (TargetHandler.CreateTarget env db r)).
Proof.
  intros C.
  destruct (Z.eq_dec
              (http.Status (resp (TargetHandler.CreateTarget env db r)))
              http.StatusCreated) as [Hs|Hs].
  - destruct (CreateTarget_created env db r Hs)
      as (req & _ & _ & _ & _ & _ & Hrepo & Hkey & Hid & ->).
    simpl db_after. now apply consistent_insert_target.
  - now rewrite (CreateTarget_not_created env db r Hs).
Qed.

(** X1. Whatever the request and whatever the store does during it, each
    of the three handlers leaves a consistent store consistent: identifiers
    stay distinct in both tables, every target still references a stored
    repository, source URLs stay distinct and so do the (repository, remote
    URL) pairs. *)
Theorem handlers_keep_store_consistent
    (env : Env) (db : database.DB)
    (rr : http.Request CreateRepositoryRequest.t)
    (rt : http.Request CreateTargetRequest.t) :
  consistent db ->
  consistent (db_after (RepoHandler.CreateRepository env db rr))
  /\ consistent (db_after (RepoHandler.ListRepositories env db))
  /\ consistent (db_after (TargetHandler.CreateTarget env db rt)).
Proof.
  intros C. split; [|split].
  - now apply CreateRepository_keeps_consistent.
  - now rewrite ListRepositories_reads_only.
  - now apply CreateTarget_keeps_consistent.
Qed.

Lemma handlers_keep_store_consistent_witness :
  consistent
    (db_after (RepoHandler.CreateRepository (Fixtures.steady 1 "u1")
                 Fixtures.empty (Fixtures.post "" Fixtures.svc))).
Proof.
  exact (proj1 (handlers_keep_store_consistent (Fixtures.steady 1 "u1")
                  Fixtures.empty (Fixtures.post "" Fixtures.svc)
                  (Fixtures.post "r1" Fixtures.mirror) empty_consistent)).
Defined.

Lemma serve_keeps_consistent env db route :
  consistent db -> consistent (db_after (serve env db route)).
Proof.
  intros C. destruct route as [|body| |id body]; simpl.
  - exact C.
  - now apply CreateRepository_keeps_consistent.
  - unfold Handler.ListRepositories. now rewrite ListRepositories_reads_only.
  - now apply CreateTarget_keeps_consistent.
Qed.

(** X2. Every store reached from the empty one by serving requests on the
    four routes, one after the other, is consistent, whichever requests
    come and whichever statements fail. *)
Theorem served_stores_consistent (calls : list (Env * Route)) :
  consistent (serve_all Fixtures.empty calls).
Proof.
  generalize empty_consistent. generalize Fixtures.empty as db.
  induction calls as [|[env route] calls IH]; intros db C; simpl.
  - exact C.
  - apply IH. now apply serve_keeps_consistent.
Qed.

(** ** The answers and the statements of a handler *)

Ltac among := simpl; solve [repeat constructor].

Ltac no_insert :=
  let H := fresh in
  simpl; intros H;
  repeat (apply elem_of_cons in H as [H|H]; [discriminate H|]);
  inversion H.

(** X3. [CreateRepository] answers 201, 400, 409 or 500 and nothing else
    (never 404); [CreateTarget] answers 201, 400, 404, 409 or 500;
    [ListRepositories] answers 200 or 500. *)
Theorem handler_statuses
    (env : Env) (db : database.DB)
    (rr : http.Request CreateRepositoryRequest.t)
    (rt : http.Request CreateTargetRequest.t) :
  http.Status (resp (RepoHandler.CreateRepository env db rr))
    ∈ [http.StatusCreated; http.StatusBadRequest; http.StatusConflict;
       http.StatusInternalServerError]
  /\ http.Status (resp (TargetHandler.CreateTarget env db rt))
       ∈ [http.StatusCreated; http.StatusBadRequest; http.StatusNotFound;
          http.StatusConflict; http.StatusInternalServerError]
  /\ http.Status (resp (RepoHandler.ListRepositories env db))
       ∈ [http.StatusOK; http.StatusInternalServerError].
Proof.
  split; [|split].
  - destruct (http.Decode rr) as [req|] eqn:D.
    2:{ unfold RepoHandler.CreateRepository. rewrite D. among. }
    destruct (violates_dec req) as [Hv|Hv].
    { destruct (CreateRepository_invalid env db rr req D Hv) as (msg & f & -> & _).
      among. }
    rewrite (CreateRepository_valid env db rr req D Hv). cbv zeta.
    destruct (database.round_trip env 0 _) as [[|]|]; simpl; try among.
    destruct (database.round_trip env 1 _) as [[db' id]|]; among.
  - destruct (fault env 0) eqn:F0.
    { rewrite CreateTarget_no_repository by auto. among. }
    destruct (decide (path_id rt ∈ repository_ids db)) as [E|E].
    2:{ rewrite CreateTarget_no_repository by auto. among. }
    destruct (http.Decode rt) as [req|] eqn:D.
    2:{ rewrite CreateTarget_undecodable by auto. among. }
    destruct (target_violates_dec req) as [Hv|Hv].
    { destruct (CreateTarget_invalid env db rt req F0 E D Hv) as [msg ->].
      among. }
    rewrite (CreateTarget_valid env db rt req F0 E D Hv). cbv zeta.
    destruct (database.round_trip env 1 _) as [[|]|]; simpl; try among.
    destruct (database.round_trip env 2 _) as [[db' id]|]; among.
  - unfold RepoHandler.ListRepositories, database.round_trip.
    destruct (fault env 0); [among|].
    destruct (each_repository_spec env db (database.select_repositories db) 1
                None [SelectRepositoriesOrderByCreatedAtDesc]) as [[sent' H]|H];
      rewrite H; among.
Qed.

(** X4. [CreateRepository] sends an INSERT only for a request that passed
    validation and whose source_url the store, asked just before, does not
    hold; [CreateTarget] sends one only for a stored repository, a valid
    body and a (repository, remote_url) pair the store does not hold. *)
Theorem inserts_only_after_checks
    (env : Env) (db : database.DB)
    (rr : http.Request CreateRepositoryRequest.t)
    (rt : http.Request CreateTargetRequest.t) :
  (forall n p u t,
      InsertRepositoryReturningID n p u t
        ∈ stmts (RepoHandler.CreateRepository env db rr) ->
      http.Decode rr = Some (CreateRepositoryRequest.mk n p u)
      /\ ~ violates (CreateRepositoryRequest.mk n p u)
      /\ (u ∉ source_urls db)
      /\ stmts (RepoHandler.CreateRepository env db rr)
         = [SelectExistsRepositoryBySourceURL u;
            InsertRepositoryReturningID n p u t])
  /\ (forall i p u t,
        InsertTargetReturningID i p u t
          ∈ stmts (TargetHandler.CreateTarget env db rt) ->
        http.Decode rt = Some (CreateTargetRequest.mk p u)
        /\ ~ target_violates (CreateTargetRequest.mk p u)
        /\ i = path_id rt /\ i ∈ repository_ids db
        /\ ((i, u) ∉ target_keys db)
        /\ stmts (TargetHandler.CreateTarget env db rt)
           = [SelectExistsRepositoryByID i; SelectExistsTarget i u;
              InsertTargetReturningID i p u t]).
Proof.
  split.
  - intros n p u t. destruct (http.Decode rr) as [req|] eqn:D.
    2:{ unfold RepoHandler.CreateRepository. rewrite D. no_insert. }
    destruct (violates_dec req) as [Hv|Hv].
    { destruct (CreateRepository_invalid env db rr req D Hv) as (msg & f & -> & _).
      no_insert. }
    rewrite (CreateRepository_valid env db rr req D Hv). cbv zeta.
    unfold database.round_trip.
    destruct (fault env 0); [no_insert|].
    destruct (database.exists_repository_by_source_url db _) eqn:E;
      [no_insert|].
    assert (CreateRepositoryRequest.SourceURL req ∉ source_urls db) as N.
    { rewrite <- exists_repository_by_source_url_spec. congruence. }
    assert (forall res : Result,
              stmts res
              = [SelectExistsRepositoryBySourceURL
                   (CreateRepositoryRequest.SourceURL req);
                 InsertRepositoryReturningID (CreateRepositoryRequest.Name req)
                   (CreateRepositoryRequest.SourceProvider req)
                   (CreateRepositoryRequest.SourceURL req) (now env)] ->
              InsertRepositoryReturningID n p u t ∈ stmts res ->
              Some req = Some (CreateRepositoryRequest.mk n p u)
              /\ ~ violates (CreateRepositoryRequest.mk n p u)
              /\ (u ∉ source_urls db)
              /\ stmts res
                 = [SelectExistsRepositoryBySourceURL u;
                    InsertRepositoryReturningID n p u t]) as Shape.
    { intros res -> Hin.
      apply elem_of_cons in Hin as [Hin|Hin]; [discriminate|].
      apply list_elem_of_singleton in Hin. injection Hin as -> -> -> ->.
      destruct req; simpl in *. auto. }
    destruct (fault env 1); [apply Shape; reflexivity|].
    destruct (database_sql.insert_repository_returning_id env db _ _ _ _)
      as [[db' id]|]; apply Shape; reflexivity.
  - intros i p u t.
    destruct (fault env 0) eqn:F0.
    { rewrite CreateTarget_no_repository by auto. no_insert. }
    destruct (decide (path_id rt ∈ repository_ids db)) as [K|K].
    2:{ rewrite CreateTarget_no_repository by auto. no_insert. }
    destruct (http.Decode rt) as [req|] eqn:D.
    2:{ rewrite CreateTarget_undecodable by auto. no_insert. }
    destruct (target_violates_dec req) as [Hv|Hv].
    { destruct (CreateTarget_invalid env db rt req F0 K D Hv) as [msg ->].
      no_insert. }
    rewrite (CreateTarget_valid env db rt req F0 K D Hv). cbv zeta.
    unfold database.round_trip.
    destruct (fault env 1); [no_insert|].
    destruct (database.exists_target db _ _) eqn:E; [no_insert|].
    assert ((path_id rt, CreateTargetRequest.RemoteURL req) ∉ target_keys db)
      as N.
    { rewrite <- exists_target_spec. congruence. }
    assert (forall res : Result,
              stmts res
              = [SelectExistsRepositoryByID (path_id rt);
                 SelectExistsTarget (path_id rt)
                   (CreateTargetRequest.RemoteURL req);
                 InsertTargetReturningID (path_id rt)
                   (CreateTargetRequest.Provider req)
                   (CreateTargetRequest.RemoteURL req) (now env)] ->
              InsertTargetReturningID i p u t ∈ stmts res ->
              Some req = Some (CreateTargetRequest.mk p u)
              /\ ~ target_violates (CreateTargetRequest.mk p u)
              /\ i = path_id rt /\ i ∈ repository_ids db
              /\ ((i, u) ∉ target_keys db)
              /\ stmts res
                 = [SelectExistsRepositoryByID i; SelectExistsTarget i u;
                    InsertTargetReturningID i p u t]) as Shape.
    { intros res -> Hin.
      apply elem_of_cons in Hin as [Hin|Hin]; [discriminate|].
      apply elem_of_cons in Hin as [Hin|Hin]; [discriminate|].
      apply list_elem_of_singleton in Hin. injection Hin as -> -> -> ->.
      destruct req; simpl in *. auto 10. }
    destruct (fault env 2); [apply Shape; reflexivity|].
    destruct (database_sql.insert_target_returning_id env db _ _ _ _)
      as [[db' id]|]; apply Shape; reflexivity.
Qed.

Lemma inserts_only_after_checks_witness :
  http.Decode (Fixtures.post "" Fixtures.svc) = Some Fixtures.svc
  /\ (CreateRepositoryRequest.SourceURL Fixtures.svc ∉ source_urls Fixtures.empty).
Proof.
  destruct (proj1 (inserts_only_after_checks (Fixtures.steady 5 "u1")
                     Fixtures.empty (Fixtures.post "" Fixtures.svc)
                     (Fixtures.post "r1" Fixtures.mirror))
              "svc" "github" "https://github.com/org/svc" 5)
    as (D & _ & N & _).
  - apply list_elem_of_In. simpl. right. left. reflexivity.
  - split; assumption.
Defined.

(** ** Validation and the created record in [CreateTarget] *)

Lemma CreateTarget_invalid_named env db r req :
  fault env 0 = false -> path_id r ∈ repository_ids db ->
  http.Decode r = Some req -> target_violates req ->
  exists msg f,
    TargetHandler.CreateTarget env db r
    = reply db [SelectExistsRepositoryByID (path_id r)]
        (http.Error msg http.StatusBadRequest)
    /\ named_target_fields msg = [f] /\ target_field_violated req f.
Proof.
  unfold TargetHandler.CreateTarget, database.round_trip.
  intros -> E D Hv. apply exists_repository_by_id_spec in E.
  unfold path_id in *. rewrite E, D.
  destruct (blank (CreateTargetRequest.Provider req)) eqn:B.
  { eexists. exists FProvider. split; [reflexivity|]. split; [reflexivity|].
    now apply blank_not_allowed. }
  destruct (map_get allowedProviders _) eqn:E1; simpl.
  2:{ eexists. exists FProvider. split; [reflexivity|]. split; [reflexivity|].
      simpl. rewrite <- map_get_allowed. congruence. }
  destruct (blank (CreateTargetRequest.RemoteURL req)) eqn:E2.
  { eexists. exists FRemoteURL. split; [reflexivity|]. split; [reflexivity|].
    left. now apply blank_spec. }
  destruct (negb _ && negb _) eqn:E3.
  { eexists. exists FRemoteURL. split; [reflexivity|]. split; [reflexivity|].
    right. rewrite <- scheme_check. congruence. }
  exfalso. destruct Hv as [H|[H|H]].
  - apply H, map_get_allowed, E1.
  - apply blank_spec in H. congruence.
  - apply H, scheme_check, E3.
Qed.

(** X5. Once the repository of the path is found, [CreateTarget] answers a
    decodable body with 400 if and only if the provider is not one of
    github, gitlab and gitea, or the remote_url is blank after trimming or
    begins with neither https:// nor ssh://.  The message names exactly one
    field, a violated one; the existence query is the only statement sent
    (validation comes after it) and nothing is inserted. *)
Theorem CreateTarget_rejects_exactly_violations
    (env : Env) (db : database.DB) (r : http.Request CreateTargetRequest.t)
    (req : CreateTargetRequest.t) :
  fault env 0 = false -> path_id r ∈ repository_ids db ->
  http.Decode r = Some req ->
  let res := TargetHandler.CreateTarget env db r in
  (http.Status (resp res) = http.StatusBadRequest <-> target_violates req)
  /\ (target_violates req ->
      exists msg f,
        resp res = http.Error msg http.StatusBadRequest
        /\ named_target_fields msg = [f] /\ target_field_violated req f
        /\ stmts res = [SelectExistsRepositoryByID (path_id r)]
        /\ db_after res = db).
Proof.
  intros F0 K D res. subst res. split; [split|].
  - intros Hs. destruct (target_violates_dec req) as [Hv|Hv]; [assumption|].
    exfalso. revert Hs.
    rewrite (CreateTarget_valid env db r req F0 K D Hv). cbv zeta.
    destruct (database.round_trip env 1 _) as [[|]|]; try discriminate.
    destruct (database.round_trip env 2 _) as [[db' id]|]; discriminate.
  - intros Hv.
    destruct (CreateTarget_invalid_named env db r req F0 K D Hv)
      as (msg & f & -> & _). reflexivity.
  - intros Hv.
    destruct (CreateTarget_invalid_named env db r req F0 K D Hv)
      as (msg & f & -> & Hn & Hf).
    exists msg, f. repeat split; assumption.
Qed.

Lemma CreateTarget_rejects_exactly_violations_witness :
  exists msg,
    resp (TargetHandler.CreateTarget (Fixtures.steady 3 "t3") Fixtures.one
            (Fixtures.post "r1" (CreateTargetRequest.mk "gitea" "ftp://x")))
    = http.Error msg http.StatusBadRequest
    /\ exists f, named_target_fields msg = [f].
Proof.
  destruct (proj2 (CreateTarget_rejects_exactly_violations
                     (Fixtures.steady 3 "t3") Fixtures.one
                     (Fixtures.post "r1" (CreateTargetRequest.mk "gitea" "ftp://x"))
                     (CreateTargetRequest.mk "gitea" "ftp://x") eq_refl
                     (proj1 (exists_repository_by_id_spec Fixtures.one "r1")
                        eq_refl)
                     eq_refl))
    as (msg & f & R & N & V & _).
  - right. right. intros [[rest H]|[rest H]]; discriminate H.
  - exists msg. split; [exact R|]. exists f. exact N.
Defined.

(** X6. A 201 answer of [CreateTarget] carries the target record: its
    repository_id is the identifier of the path, which is the identifier of
    a stored repository; provider and remote_url are those of the body,
    unchanged; created_at is the clock reading of the request; the
    identifier is not the identifier of any target stored before.  The store
    gains that one row at the end of replication_targets and the
    repositories table is untouched. *)
Theorem CreateTarget_created_record
    (env : Env) (db : database.DB) (r : http.Request CreateTargetRequest.t) :
  let res := TargetHandler.CreateTarget env db r in
  http.Status (resp res) = http.StatusCreated ->
  exists req id,
    http.Decode r = Some req
    /\ resp res
       = http.Encode http.StatusCreated
           (Json.Target_
              (Target.mk id (path_id r) (CreateTargetRequest.Provider req)
                 (CreateTargetRequest.RemoteURL req) (now env)))
    /\ path_id r ∈ repository_ids db
    /\ (id ∉ target_ids db)
    /\ database.replication_targets_tbl (db_after res)
       = database.replication_targets_tbl db
         ++ [replication_targets.mk id (path_id r)
               (CreateTargetRequest.Provider req)
               (CreateTargetRequest.RemoteURL req) (now env)]
    /\ database.repositories_tbl (db_after res) = database.repositories_tbl db.
Proof.
  intros res Hs. subst res.
  destruct (CreateTarget_created env db r Hs)
    as (req & D & _ & _ & _ & _ & K & _ & Hid & ->).
  exists req, (gen_random_uuid env). repeat split; assumption.
Qed.

Lemma CreateTarget_created_record_witness :
  exists req id,
    http.Decode (Fixtures.post "r1" Fixtures.mirror) = Some req
    /\ resp (TargetHandler.CreateTarget (Fixtures.steady 3 "t3") Fixtures.one
               (Fixtures.post "r1" Fixtures.mirror))
       = http.Encode http.StatusCreated
           (Json.Target_
              (Target.mk id "r1" (CreateTargetRequest.Provider req)
                 (CreateTargetRequest.RemoteURL req) 3)).
Proof.
  destruct (CreateTarget_created_record (Fixtures.steady 3 "t3") Fixtures.one
              (Fixtures.post "r1" Fixtures.mirror) eq_refl)
    as (req & id & D & R & _).
  exists req, id. split; assumption.
Defined.

(** ** Fields are checked as they were sent *)

Lemma allowed_provider_trimmed p :
  allowed_provider p -> strings.TrimSpace p = p.
Proof. intros [ -> | [ -> | -> ] ]; reflexivity. Qed.

(** X7. The provider is looked up in the allow-list as it was sent, not
    trimmed: a provider that [TrimSpace] would change (white space before or
    after it) is rejected with 400 by [CreateRepository], before any
    statement, and by [CreateTarget] once the repository is found. *)
Theorem untrimmed_provider_rejected
    (env : Env) (db : database.DB)
    (rr : http.Request CreateRepositoryRequest.t)
    (rt : http.Request CreateTargetRequest.t)
    (req : CreateRepositoryRequest.t) (treq : CreateTargetRequest.t) :
  (http.Decode rr = Some req ->
   strings.TrimSpace (CreateRepositoryRequest.SourceProvider req)
   <> CreateRepositoryRequest.SourceProvider req ->
   http.Status (resp (RepoHandler.CreateRepository env db rr))
   = http.StatusBadRequest
   /\ stmts (RepoHandler.CreateRepository env db rr) = [])
  /\ (http.Decode rt = Some treq ->
      strings.TrimSpace (CreateTargetRequest.Provider treq)
      <> CreateTargetRequest.Provider treq ->
      fault env 0 = false -> path_id rt ∈ repository_ids db ->
      http.Status (resp (TargetHandler.CreateTarget env db rt))
      = http.StatusBadRequest
      /\ db_after (TargetHandler.CreateTarget env db rt) = db).
Proof.
  split.
  - intros D Ht.
    assert (violates req) as Hv.
    { exists FSourceProvider. right. intros A.
      now apply Ht, allowed_provider_trimmed. }
    destruct (CreateRepository_invalid env db rr req D Hv) as (msg & f & -> & _).
    split; reflexivity.
  - intros D Ht F0 K.
    assert (target_violates treq) as Hv.
    { left. intros A. now apply Ht, allowed_provider_trimmed. }
    destruct (CreateTarget_invalid env db rt treq F0 K D Hv) as [msg ->].
    split; reflexivity.
Qed.

Lemma untrimmed_provider_rejected_witness :
  http.Status
    (resp (RepoHandler.CreateRepository (Fixtures.steady 1 "u1") Fixtures.empty
             (Fixtures.post ""
                (CreateRepositoryRequest.mk "svc" " github"
                   "https://github.com/org/svc"))))
  = http.StatusBadRequest.
Proof.
  refine (proj1 (proj1 (untrimmed_provider_rejected (Fixtures.steady 1 "u1")
                          Fixtures.empty
                          (Fixtures.post ""
                             (CreateRepositoryRequest.mk "svc" " github"
                                "https://github.com/org/svc"))
                          (Fixtures.post "r1" Fixtures.mirror)
                          (CreateRepositoryRequest.mk "svc" " github"
                             "https://github.com/org/svc")
                          Fixtures.mirror) eq_refl _)).
  vm_compute. discriminate.
Defined.

(** ** Creating, then listing *)

Lemma elem_of_map {A B} (f : A -> B) (l : list A) (y : B) :
  y ∈ map f l <-> exists x, y = f x /\ x ∈ l.
Proof.
  rewrite list_elem_of_In, in_map_iff. split; intros (x & H1 & H2); exists x.
  - split; [now symmetry | now apply list_elem_of_In].
  - split; [now symmetry | now apply list_elem_of_In].
Qed.








(** ** Statements and failures of a listing *)

Lemma each_repository_first_failure env db rows : forall i k repos sent,
  (i < length rows)%nat ->
  (forall j, (j < i)%nat -> fault env (k + j) = false) ->
  fault env (k + i) = true ->
  RepoHandler.each_repository env db k rows repos sent
  = (sent ++ target_queries (take (S i) rows),
     inl (http.Error "failed to fetch targets" http.StatusInternalServerError)).
Proof.
  induction rows as [|row rows IH]; intros i k repos sent Hi Hok Hbad.
  { simpl in Hi. lia. }
  simpl RepoHandler.each_repository. unfold database.round_trip.
  destruct i as [|i].
  - rewrite Nat.add_0_r in Hbad. rewrite Hbad. reflexivity.
  - rewrite <- (Nat.add_0_r k) at 1. rewrite (Hok 0%nat) by lia.
    rewrite (IH i (S k)).
    + simpl. now rewrite <- app_assoc.
    + simpl in Hi. lia.
    + intros j Hj. replace (S k + j)%nat with (k + S j)%nat by lia.
      apply Hok. lia.
    + now replace (S k + i)%nat with (k + S i)%nat by lia.
Qed.

(** X10. When the targets query of the i-th listed repository fails (the
    queries before it having been answered), [ListRepositories] answers 500
    "failed to fetch targets": nothing of the repositories already read is
    returned, i + 2 statements were sent and none after the failed one. *)
Theorem listing_aborts_on_failed_targets_query
    (env : Env) (db : database.DB) (i : nat) :
  (i < length (database.repositories_tbl db))%nat ->
  (forall j, (j <= i)%nat -> fault env j = false) ->
  fault env (S i) = true ->
  let res := RepoHandler.ListRepositories env db in
  resp res
  = http.Error "failed to fetch targets" http.StatusInternalServerError
  /\ stmts res
     = SelectRepositoriesOrderByCreatedAtDesc
       :: target_queries (take (S i) (database.select_repositories db))
  /\ length (stmts res) = (i + 2)%nat
  /\ db_after res = db.
Proof.
  intros Hi Hok Hbad res. subst res.
  assert (i < length (database.select_repositories db))%nat as Hi'.
  { unfold database.select_repositories.
    now rewrite (merge_sort_Permutation database.created_desc). }
  assert (RepoHandler.ListRepositories env db
          = reply db
              (SelectRepositoriesOrderByCreatedAtDesc
               :: target_queries (take (S i) (database.select_repositories db)))
              (http.Error "failed to fetch targets"
                 http.StatusInternalServerError)) as ->.
  { unfold RepoHandler.ListRepositories, database.round_trip.
    rewrite (Hok 0%nat) by lia.
    rewrite (each_repository_first_failure env db _ i 1); try assumption.
    - reflexivity.
    - intros j Hj. apply Hok. simpl. lia.
  }
  repeat split. simpl. unfold target_queries.
  rewrite length_map, length_take. lia.
Qed.

Lemma listing_aborts_on_failed_targets_query_witness :
  resp (RepoHandler.ListRepositories
          {| fault := fun k => Nat.eqb k 2; now := 1; uuid_New := "u";
             gen_random_uuid := "u" |} Fixtures.two)
  = http.Error "failed to fetch targets" http.StatusInternalServerError.
Proof.
  refine (proj1 (listing_aborts_on_failed_targets_query
                   {| fault := fun k => Nat.eqb k 2; now := 1; uuid_New := "u";
                      gen_random_uuid := "u" |} Fixtures.two 1 _ _ eq_refl)).
  - simpl. lia.
  - intros j Hj. destruct j as [|[|j]]; [reflexivity|reflexivity|lia].
Defined.

(** X11. A 200 answer of [ListRepositories] took one statement for the
    repositories and one more for each repository, in the order of the
    listing, and left the store as it was. *)
Theorem listing_sends_one_query_per_repository (env : Env) (db : database.DB) :
  let res := RepoHandler.ListRepositories env db in
  http.Status (resp res) = http.StatusOK ->
  stmts res
  = SelectRepositoriesOrderByCreatedAtDesc
    :: target_queries (database.select_repositories db)
  /\ length (stmts res) = S (length (database.repositories_tbl db))
  /\ db_after res = db.
Proof.
  intros res Hs. subst res. split; [|split].
  - revert Hs. unfold RepoHandler.ListRepositories, database.round_trip.
    destruct (fault env 0); [discriminate|].
    destruct (each_repository_spec env db (database.select_repositories db) 1
                None [SelectRepositoriesOrderByCreatedAtDesc]) as [[sent' H]|H];
      rewrite H; [discriminate|]. reflexivity.
  - revert Hs. unfold RepoHandler.ListRepositories, database.round_trip.
    destruct (fault env 0); [discriminate|].
    destruct (each_repository_spec env db (database.select_repositories db) 1
                None [SelectRepositoriesOrderByCreatedAtDesc]) as [[sent' H]|H];
      rewrite H; [discriminate|]. intros _. simpl.
    unfold target_queries, database.select_repositories.
    now rewrite length_map, (merge_sort_Permutation database.created_desc).
  - apply ListRepositories_reads_only.
Qed.

Lemma listing_sends_one_query_per_repository_witness :
  stmts (RepoHandler.ListRepositories (Fixtures.steady 1 "u") Fixtures.two)
  = [SelectRepositoriesOrderByCreatedAtDesc;
     SelectTargetsByRepositoryID "r2"; SelectTargetsByRepositoryID "r1"].
Proof.
  exact (proj1 (listing_sends_one_query_per_repository (Fixtures.steady 1 "u")
                  Fixtures.two eq_refl)).
Defined.

(** ** No target is lost or listed twice *)

Lemma filter_split {A} (p : A -> bool) (l : list A) :
  List.filter p l ++ List.filter (fun x => negb (p x)) l ≡ₚ l.
Proof.
  induction l as [|x l IH]; [reflexivity|]. simpl.
  destruct (p x); simpl.
  - now rewrite IH.
  - rewrite <- Permutation_middle. now rewrite IH.
Qed.

Lemma partition_by_key {A} (key : A -> string) (ids : list string) :
  NoDup ids -> forall l : list A,
  (forall x, x ∈ l -> key x ∈ ids) ->
  concat (map (fun i => List.filter (fun x => String.eqb (key x) i) l) ids) ≡ₚ l.
Proof.
  induction 1 as [|i ids Hi Hids IH]; intros l Hl.
  - destruct l as [|x l]; [reflexivity|].
    exfalso. pose proof (Hl x (list_elem_of_here _ _)) as H. inversion H.
  - simpl.
    etransitivity; [|apply (filter_split (fun x => String.eqb (key x) i) l)].
    apply Permutation_app; [reflexivity|].
    rewrite <- (IH (List.filter (fun x => negb (String.eqb (key x) i)) l)).
    + apply eq_subrelation; [typeclasses eauto|]. f_equal.
      apply map_ext_in. intros j Hj.
      induction l as [|x l IHl]; [reflexivity|]. simpl.
      destruct (String.eqb_spec (key x) i) as [E|E]; simpl.
      * destruct (String.eqb_spec (key x) j) as [F|F].
        -- exfalso. apply Hi. apply list_elem_of_In. congruence.
        -- apply IHl. intros y Hy. apply Hl. now apply list_elem_of_further.
      * destruct (String.eqb (key x) j).
        -- f_equal. apply IHl. intros y Hy. apply Hl.
           now apply list_elem_of_further.
        -- apply IHl. intros y Hy. apply Hl. now apply list_elem_of_further.
    + intros x Hx. apply list_elem_of_In, List.filter_In in Hx as [Hx Hne].
      apply list_elem_of_In in Hx. pose proof (Hl x Hx) as Hk.
      apply elem_of_cons in Hk as [Hk|Hk]; [|assumption].
      rewrite Hk, String.eqb_refl in Hne. discriminate.
Qed.

Lemma listed_elems db row :
  elems (Repository.Targets (listed db row))
  = map RepoHandler.scan_target
      (database.select_targets db (repositories.id row)).
Proof.
  unfold listed. rewrite collect_targets_spec. simpl.
  now destruct (database.select_targets db (repositories.id row)).
Qed.

Lemma concat_map_map {A B C} (f : B -> C) (g : A -> list B) (l : list A) :
  concat (map (fun x => map f (g x)) l) = map f (concat (map g l)).
Proof.
  induction l as [|x l IH]; [reflexivity|]. simpl.
  now rewrite IH, map_app.
Qed.

(** X12. On a consistent store the targets attached in a listing, taken
    over all the repositories, are the rows of replication_targets, each
    exactly once: no target is lost and none is listed twice. *)
Theorem listing_attaches_every_target_once (env : Env) (db : database.DB) :
  consistent db ->
  (http.Status (resp (RepoHandler.ListRepositories env db)) = http.StatusOK ->
   resp (RepoHandler.ListRepositories env db)
   = http.Encode http.StatusOK
       (JArray (map (fun row => Json.Repository_ (listed db row))
                  (database.select_repositories db))))
  /\ listed_targets db
     ≡ₚ map RepoHandler.scan_target (database.replication_targets_tbl db).
Proof.
  intros C. split; [apply ListRepositories_ok|]. unfold listed_targets.
  rewrite (map_ext _ _ (listed_elems db)).
  rewrite concat_map_map. apply Permutation_map.
  rewrite <- (map_map repositories.id
                (fun i => database.select_targets db i)).
  unfold database.select_targets.
  apply (partition_by_key replication_targets.repository_id).
  - unfold database.select_repositories.
    rewrite (merge_sort_Permutation database.created_desc).
    apply (repository_ids_distinct db C).
  - intros t Ht. pose proof (targets_reference_repositories db C t Ht) as H.
    unfold repository_ids in H. unfold database.select_repositories.
    now rewrite (merge_sort_Permutation database.created_desc).
Qed.

Lemma two_consistent : consistent Fixtures.two.
Proof.
  split.
  - apply (NoDup_ListNoDup). repeat constructor; simpl; intuition discriminate.
  - apply (NoDup_ListNoDup). repeat constructor; simpl; intuition discriminate.
  - intros t Ht. apply list_elem_of_In in Ht. apply list_elem_of_In.
    simpl in *. intuition (subst; simpl; auto).
  - apply (NoDup_ListNoDup). repeat constructor; simpl; intuition discriminate.
  - apply (NoDup_ListNoDup). repeat constructor; simpl; intuition discriminate.
Defined.

Lemma listing_attaches_every_target_once_witness :
  listed_targets Fixtures.two
  ≡ₚ map RepoHandler.scan_target (database.replication_targets_tbl Fixtures.two).
Proof.
  exact (proj2 (listing_attaches_every_target_once (Fixtures.steady 1 "u")
                  Fixtures.two two_consistent)).
Defined.

(** * The migrations *)

(** ** The order of [sort.Slice] *)

Lemma compare_flip a b : String.compare a b = Gt -> String.compare b a = Lt.
Proof. intros H. rewrite String.compare_antisym, H. reflexivity. Qed.

Lemma ltb_false_total a b : String.ltb b a = false \/ String.ltb a b = false.
Proof.
  unfold String.ltb. rewrite (String.compare_antisym a b).
  destruct (String.compare b a); simpl; auto.
Qed.

Lemma ltb_false_trans a b c :
  String.ltb b a = false -> String.ltb c b = false -> String.ltb c a = false.
Proof.
  unfold String.ltb. intros H1 H2.
  destruct (String.compare c a) eqn:E; try reflexivity. exfalso.
  destruct (String.compare b a) eqn:E1; [|discriminate|].
  - apply String.compare_eq_iff in E1. subst b. now rewrite E in H2.
  - destruct (String.compare c b) eqn:E2; [|discriminate|].
    + apply String.compare_eq_iff in E2. subst c. congruence.
    + apply compare_flip, OrderedTypeEx.String_as_OT.cmp_lt in E1, E2.
      pose proof (OrderedTypeEx.String_as_OT.lt_trans _ _ _ E1 E2) as T.
      apply OrderedTypeEx.String_as_OT.cmp_lt in T.
      unfold OrderedTypeEx.String_as_OT.cmp in T.
      rewrite String.compare_antisym, T in E. discriminate.
Qed.

Lemma ltb_false_antisym a b :
  String.ltb b a = false -> String.ltb a b = false -> a = b.
Proof.
  unfold String.ltb. rewrite (String.compare_antisym a b). intros H1 H2.
  destruct (String.compare b a) eqn:E; simpl in *; try discriminate.
  symmetry. now apply String.compare_eq_iff.
Qed.

#[local] Instance ordered_total : Total migrate.ordered.
Proof. intros a b. apply ltb_false_total. Qed.

#[local] Instance ordered_trans : Transitive migrate.ordered.
Proof. intros a b c. apply ltb_false_trans. Qed.

Lemma StronglySorted_filter {A} (R : relation A) (p : A -> bool) (l : list A) :
  StronglySorted R l -> StronglySorted R (List.filter p l).
Proof.
  induction 1 as [|x l Hl IH Hx]; simpl; [constructor|].
  destruct (p x); [|assumption]. constructor; [assumption|].
  apply Forall_forall. intros y Hy.
  apply list_elem_of_In, List.filter_In in Hy as [Hy _].
  rewrite Forall_forall in Hx. now apply Hx, list_elem_of_In.
Qed.

Lemma StronglySorted_map {A B} (R : relation B) (f : A -> B) (l : list A) :
  StronglySorted (fun x y => R (f x) (f y)) l -> StronglySorted R (map f l).
Proof.
  induction 1 as [|x l Hl IH Hx]; simpl; constructor; [assumption|].
  apply Forall_forall. intros y Hy.
  apply elem_of_map in Hy as (z & -> & Hz).
  rewrite Forall_forall in Hx. now apply Hx.
Qed.

Lemma files_sorted entries :
  StronglySorted (fun a b => String.ltb b a = false) (migrate.files entries).
Proof.
  unfold migrate.files. apply StronglySorted_map, StronglySorted_filter.
  apply (StronglySorted_merge_sort migrate.ordered).
Qed.

Lemma files_all entries :
  migrate.files entries
  ≡ₚ map fs.Name (List.filter (fun e => negb (fs.IsDir e)) entries).
Proof.
  unfold migrate.files, migrate.sort_Slice. apply Permutation_map.
  induction (merge_sort_Permutation migrate.ordered entries)
    as [|x l l' H IH|x y l|l l' l'' H1 IH1 H2 IH2]; simpl.
  - reflexivity.
  - destruct (negb (fs.IsDir x)); [now constructor | assumption].
  - destruct (negb (fs.IsDir x)), (negb (fs.IsDir y));
      try reflexivity. apply perm_swap.
  - now transitivity (List.filter (fun e => negb (fs.IsDir e)) l').
Qed.

(** ** The loop of [RunMigrations] *)

Section Loop.
Context {Content S : Type}.
Variable migrations : embed.FS Content.
Variable Exec : Content -> S -> string + S.

Let names (entries : list fs.DirEntry) : list string :=
  map fs.Name (List.filter (fun e => negb (fs.IsDir e)) entries).

Let line (name : string) : string := "Applied migration: " +:+ name.

Lemma each_entry_success entries : forall db out,
  err (migrate.each_entry migrations Exec entries db out) = None ->
  printed (migrate.each_entry migrations Exec entries db out)
  = out ++ map line (names entries).
Proof.
  induction entries as [|e entries IH]; intros db out; simpl.
  - intros _. now rewrite app_nil_r.
  - subst names. simpl. destruct (fs.IsDir e); simpl; [apply IH|].
    destruct (embed.ReadFile migrations _) as [x|content]; [discriminate|].
    destruct (Exec content db) as [x|db']; [discriminate|].
    intros H. rewrite (IH _ _ H). now rewrite <- app_assoc.
Qed.

Lemma each_entry_failure entries : forall db out msg,
  err (migrate.each_entry migrations Exec entries db out) = Some msg ->
  exists done e rest,
    entries = done ++ e :: rest /\ fs.IsDir e = false
    /\ migrate.each_entry migrations Exec done db out
       = {| printed := printed (migrate.each_entry migrations Exec entries db out);
            migrated := migrated (migrate.each_entry migrations Exec entries db out);
            err := None |}
    /\ ((exists x,
           embed.ReadFile migrations (migrate.path_Join "migrations" (fs.Name e))
           = inl x
           /\ msg = "failed to read migration " +:+ fs.Name e +:+ ": " +:+ x)
        \/ (exists content x,
              embed.ReadFile migrations
                (migrate.path_Join "migrations" (fs.Name e)) = inr content
              /\ Exec content
                   (migrated (migrate.each_entry migrations Exec entries db out))
                 = inl x
              /\ msg = "failed to execute migration " +:+ fs.Name e
                       +:+ ": " +:+ x)).
Proof.
  induction entries as [|e entries IH]; intros db out msg; simpl;
    [discriminate|].
  destruct (fs.IsDir e) eqn:Dir.
  { intros H. destruct (IH _ _ _ H) as (done & e' & rest & -> & D & R & F).
    exists (e :: done), e', rest. simpl. rewrite Dir. auto. }
  destruct (embed.ReadFile migrations _) as [x|content] eqn:Read.
  { intros [= <-]. exists [], e, entries. simpl. repeat split; auto.
    left. exists x. auto. }
  destruct (Exec content db) as [x|db'] eqn:Run.
  { intros [= <-]. exists [], e, entries. simpl. repeat split; auto.
    right. exists content, x. auto. }
  intros H. destruct (IH _ _ _ H) as (done & e' & rest & -> & D & R & F).
  exists (e :: done), e', rest. simpl. rewrite Dir, Read, Run. auto.
Qed.

End Loop.

Lemma each_entry_ext {Content S} (m1 m2 : embed.FS Content)
    (Exec : Content -> S -> string + S) entries :
  (forall path, embed.ReadFile m1 path = embed.ReadFile m2 path) ->
  forall db out,
    migrate.each_entry m1 Exec entries db out
    = migrate.each_entry m2 Exec entries db out.
Proof.
  intros H. induction entries as [|e entries IH]; intros db out; simpl;
    [reflexivity|].
  destruct (fs.IsDir e); [apply IH|]. rewrite H.
  destruct (embed.ReadFile m2 _) as [x|content]; [reflexivity|].
  destruct (Exec content db); [reflexivity|apply IH].
Qed.

Lemma NoDup_map_inj {A B} (f : A -> B) (l : list A) x y :
  NoDup (map f l) -> x ∈ l -> y ∈ l -> f x = f y -> x = y.
Proof.
  induction l as [|z l IH]; simpl; intros N Hx Hy E; [inversion Hx|].
  apply NoDup_cons in N as [Nz N].
  apply elem_of_cons in Hx as [->|Hx]; apply elem_of_cons in Hy as [->|Hy].
  - reflexivity.
  - exfalso. apply Nz. rewrite E. apply elem_of_map. eauto.
  - exfalso. apply Nz. rewrite <- E. apply elem_of_map. eauto.
  - now apply IH.
Qed.

Lemma sort_Slice_permutation l1 l2 :
  l1 ≡ₚ l2 -> NoDup (map fs.Name l1) ->
  migrate.sort_Slice l1 = migrate.sort_Slice l2.
Proof.
  intros P N. unfold migrate.sort_Slice.
  apply (StronglySorted_unique_strong migrate.ordered).
  - intros x y Hx Hy Hxy Hyx.
    rewrite (merge_sort_Permutation migrate.ordered) in Hx, Hy.
    rewrite <- P in Hy.
    apply (NoDup_map_inj fs.Name l1 x y N Hx Hy).
    exact (ltb_false_antisym _ _ Hxy Hyx).
  - apply (StronglySorted_merge_sort migrate.ordered).
  - apply (StronglySorted_merge_sort migrate.ordered).
  - now rewrite !(merge_sort_Permutation migrate.ordered).
Qed.

(** X13. [RunMigrations] goes through the files of the directory by
    ascending name, directories left out: the list it follows is sorted,
    holds exactly the names of the entries that are not directories, and a
    run that returns nil has printed one line for each of them, in that
    order. *)
Theorem migrations_applied_in_name_order {Content S : Type}
    (migrations : embed.FS Content) (Exec : Content -> S -> string + S)
    (db : S) (entries : list fs.DirEntry) :
  embed.ReadDir migrations "migrations" = inr entries ->
  let run := migrate.RunMigrations migrations Exec db in
  StronglySorted (fun a b => String.ltb b a = false) (migrate.files entries)
  /\ migrate.files entries
     ≡ₚ map fs.Name (List.filter (fun e => negb (fs.IsDir e)) entries)
  /\ (err run = None ->
      printed run
      = map (fun name => "Applied migration: " +:+ name) (migrate.files entries)).
Proof.
  intros Dir run. subst run. split; [apply files_sorted|].
  split; [apply files_all|].
  unfold migrate.RunMigrations. rewrite Dir. intros H.
  now rewrite (each_entry_success migrations Exec _ _ _ H).
Qed.

Lemma migrations_applied_in_name_order_witness :
  printed (migrate.RunMigrations MigrationFixtures.shuffled ddl.Exec ∅)
  = ["Applied migration: 001_initial.sql";
     "Applied migration: 002_executions.sql"].
Proof.
  exact (proj2 (proj2 (migrations_applied_in_name_order
                         MigrationFixtures.shuffled ddl.Exec ∅ _ eq_refl))
           eq_refl).
Defined.

(** X14. A failure stops the run where it happens.  When the directory
    cannot be read nothing is executed.  Otherwise the error names the first
    file that could not be read or executed; the files before it, in name
    order, were executed and stay executed (there is no rollback): the
    database is the one they left, one line was printed for each of them,
    and no file after the failing one is touched. *)
Theorem migrations_halt_at_first_failure {Content S : Type}
    (migrations : embed.FS Content) (Exec : Content -> S -> string + S)
    (db : S) :
  let run := migrate.RunMigrations migrations Exec db in
  (forall x,
      embed.ReadDir migrations "migrations" = inl x ->
      run = {| printed := []; migrated := db;
               err := Some ("failed to read migrations directory: " +:+ x) |})
  /\ (forall entries msg,
        embed.ReadDir migrations "migrations" = inr entries ->
        err run = Some msg ->
        exists done e rest,
          migrate.sort_Slice entries = done ++ e :: rest
          /\ fs.IsDir e = false
          /\ migrate.each_entry migrations Exec done db []
             = {| printed := printed run; migrated := migrated run;
                  err := None |}
          /\ printed run
             = map (fun name => "Applied migration: " +:+ name)
                 (map fs.Name (List.filter (fun e => negb (fs.IsDir e)) done))
          /\ ((exists x,
                 embed.ReadFile migrations
                   (migrate.path_Join "migrations" (fs.Name e)) = inl x
                 /\ msg = "failed to read migration " +:+ fs.Name e
                          +:+ ": " +:+ x)
              \/ (exists content x,
                    embed.ReadFile migrations
                      (migrate.path_Join "migrations" (fs.Name e))
                    = inr content
                    /\ Exec content (migrated run) = inl x
                    /\ msg = "failed to execute migration " +:+ fs.Name e
                             +:+ ": " +:+ x))).
Proof.
  intros run. subst run. split.
  - intros x Dir. unfold migrate.RunMigrations. now rewrite Dir.
  - intros entries msg Dir. unfold migrate.RunMigrations. rewrite Dir.
    intros H.
    destruct (each_entry_failure migrations Exec _ _ _ _ H)
      as (done & e & rest & Split & D & R & F).
    exists done, e, rest. repeat (split; [assumption|]). split; [|exact F].
    pose proof (each_entry_success migrations Exec done db []) as P.
    rewrite R in P. simpl in P. now apply P.
Qed.

Lemma migrations_halt_at_first_failure_witness :
  exists done e rest,
    migrate.sort_Slice [ {| fs.Name := "002_executions.sql"; fs.IsDir := false |} ]
    = done ++ e :: rest
    /\ printed (migrate.RunMigrations MigrationFixtures.executions_only
                  ddl.Exec ∅)
       = map (fun name => "Applied migration: " +:+ name)
           (map fs.Name (List.filter (fun e => negb (fs.IsDir e)) done)).
Proof.
  assert (err (migrate.RunMigrations MigrationFixtures.executions_only
                 ddl.Exec ∅)
          = Some ("failed to execute migration 002_executions.sql: "
                  +:+ "foreign key of executions cannot be implemented")) as E
    by (vm_compute; reflexivity).
  destruct (proj2 (migrations_halt_at_first_failure
                     MigrationFixtures.executions_only ddl.Exec ∅)
              _ _ eq_refl E)
    as (done & e & rest & Split & _ & _ & P & _).
  exists done, e, rest. split; assumption.
Defined.

(** X15. The outcome does not depend on the order in which the directory
    lists its entries (names being distinct, as in a directory): the run
    sorts them itself. *)
Theorem migrations_independent_of_listing_order {Content S : Type}
    (m1 m2 : embed.FS Content) (Exec : Content -> S -> string + S) (db : S)
    (l1 l2 : list fs.DirEntry) :
  embed.ReadDir m1 "migrations" = inr l1 ->
  embed.ReadDir m2 "migrations" = inr l2 ->
  (forall path, embed.ReadFile m1 path = embed.ReadFile m2 path) ->
  l1 ≡ₚ l2 -> NoDup (map fs.Name l1) ->
  migrate.RunMigrations m1 Exec db = migrate.RunMigrations m2 Exec db.
Proof.
  intros D1 D2 F P N. unfold migrate.RunMigrations. rewrite D1, D2.
  rewrite (sort_Slice_permutation l1 l2 P N). now apply each_entry_ext.
Qed.

Lemma migrations_independent_of_listing_order_witness :
  migrate.RunMigrations ddl.embedded ddl.Exec ∅
  = migrate.RunMigrations
      {| embed.ReadDir := fun _ =>
           inr [ {| fs.Name := "002_executions.sql"; fs.IsDir := false |};
                 {| fs.Name := "001_initial.sql"; fs.IsDir := false |} ];
         embed.ReadFile := embed.ReadFile ddl.embedded |}
      ddl.Exec ∅.
Proof.
  refine (migrations_independent_of_listing_order ddl.embedded
            {| embed.ReadDir := fun _ =>
                 inr [ {| fs.Name := "002_executions.sql"; fs.IsDir := false |};
                       {| fs.Name := "001_initial.sql"; fs.IsDir := false |} ];
               embed.ReadFile := embed.ReadFile ddl.embedded |}
            ddl.Exec ∅
            [ {| fs.Name := "001_initial.sql"; fs.IsDir := false |};
              {| fs.Name := "002_executions.sql"; fs.IsDir := false |} ]
            [ {| fs.Name := "002_executions.sql"; fs.IsDir := false |};
              {| fs.Name := "001_initial.sql"; fs.IsDir := false |} ]
            eq_refl eq_refl (fun _ => eq_refl) _ _).
  - apply perm_swap.
  - apply NoDup_ListNoDup. repeat constructor; simpl; intuition discriminate.
Defined.

(** ** The statements of the files *)

Lemma exec_stmt_skip q (rels : gmap string ddl.relation) :
  is_Some (rels !! ddl.stmt_name q) -> ddl.exec_stmt q rels = inr rels.
Proof. intros [rel H]. unfold ddl.exec_stmt. now rewrite H. Qed.

Lemma exec_stmt_extends q (rels rels' : gmap string ddl.relation) :
  ddl.exec_stmt q rels = inr rels' ->
  rels ⊆ rels' /\ is_Some (rels' !! ddl.stmt_name q)
  /\ forall n, n <> ddl.stmt_name q -> rels' !! n = rels !! n.
Proof.
  unfold ddl.exec_stmt. destruct (rels !! ddl.stmt_name q) as [rel|] eqn:L.
  { intros [= <-]. split; [reflexivity|]. split; [eauto|reflexivity]. }
  destruct q as [n cols fks|n t cols]; simpl in *.
  - destruct (_ && _); [|discriminate]. intros [= <-]. split; [|split].
    + now apply insert_subseteq.
    + rewrite lookup_insert_eq. eauto.
    + intros m Hm. now rewrite lookup_insert_ne.
  - destruct (ddl.index_ok _ _ _); [|discriminate]. intros [= <-].
    split; [|split].
    + now apply insert_subseteq.
    + rewrite lookup_insert_eq. eauto.
    + intros m Hm. now rewrite lookup_insert_ne.
Qed.

Lemma exec_stmts_extends script : forall rels rels' : gmap string ddl.relation,
  ddl.exec_stmts script rels = inr rels' ->
  rels ⊆ rels'
  /\ (forall q, q ∈ script -> is_Some (rels' !! ddl.stmt_name q))
  /\ forall n, n ∉ map ddl.stmt_name script -> rels' !! n = rels !! n.
Proof.
  induction script as [|q script IH]; intros rels rels'; simpl.
  - intros [= <-]. split; [reflexivity|]. split; [|reflexivity].
    intros q Hq. inversion Hq.
  - destruct (ddl.exec_stmt q rels) as [x|rels1] eqn:E; [discriminate|].
    intros H. apply exec_stmt_extends in E as (E1 & E2 & E3).
    apply IH in H as (H1 & H2 & H3). split; [|split].
    + now transitivity rels1.
    + intros q' Hq'. apply elem_of_cons in Hq' as [->|Hq']; [|now apply H2].
      destruct E2 as [rel E2]. exists rel.
      exact (lookup_weaken _ _ _ _ E2 H1).
    + intros n Hn. rewrite H3, E3; [reflexivity| |].
      * intros ->. apply Hn. apply list_elem_of_here.
      * intros Hin. apply Hn. now apply list_elem_of_further.
Qed.

Lemma exec_stmts_covered script (rels : gmap string ddl.relation) :
  (forall q, q ∈ script -> is_Some (rels !! ddl.stmt_name q)) ->
  ddl.exec_stmts script rels = inr rels.
Proof.
  induction script as [|q script IH]; intros H; simpl; [reflexivity|].
  rewrite exec_stmt_skip by (apply H, list_elem_of_here).
  apply IH. intros q' Hq'. now apply H, list_elem_of_further.
Qed.

Section DDLRuns.
Variable migrations : embed.FS (list ddl.stmt).

Lemma each_entry_extends entries : forall (rels : gmap string ddl.relation) out,
  rels ⊆ migrated (migrate.each_entry migrations ddl.Exec entries rels out).
Proof.
  induction entries as [|e entries IH]; intros rels out; simpl; [reflexivity|].
  destruct (fs.IsDir e); [apply IH|].
  destruct (embed.ReadFile migrations _) as [x|content]; [reflexivity|].
  destruct (ddl.Exec content rels) as [x|rels'] eqn:E; [reflexivity|].
  apply exec_stmts_extends in E as (E & _). etransitivity; [exact E|apply IH].
Qed.

Lemma each_entry_rerun entries :
  forall (rels : gmap string ddl.relation) out,
  err (migrate.each_entry migrations ddl.Exec entries rels out) = None ->
  forall rels2 out2,
    migrated (migrate.each_entry migrations ddl.Exec entries rels out) ⊆ rels2 ->
    migrate.each_entry migrations ddl.Exec entries rels2 out2
    = {| printed :=
           out2
           ++ map (fun name => "Applied migration: " +:+ name)
                (map fs.Name (List.filter (fun e => negb (fs.IsDir e)) entries));
         migrated := rels2; err := None |}.
Proof.
  induction entries as [|e entries IH]; intros rels out; simpl.
  - intros _ rels2 out2 _. now rewrite app_nil_r.
  - destruct (fs.IsDir e); simpl; [apply IH|].
    destruct (embed.ReadFile migrations _) as [x|content]; [discriminate|].
    destruct (ddl.Exec content rels) as [x|rels'] eqn:E; [discriminate|].
    intros H rels2 out2 Sub.
    apply exec_stmts_extends in E as (_ & Cov & _).
    assert (ddl.Exec content rels2 = inr rels2) as ->.
    { apply exec_stmts_covered. intros q Hq. destruct (Cov q Hq) as [rel L].
      exists rel. apply (lookup_weaken _ _ _ _ L).
      etransitivity; [apply each_entry_extends|exact Sub]. }
    rewrite (IH _ _ H _ _ Sub). now rewrite <- app_assoc.
Qed.

End DDLRuns.

(** X16. Whatever the scripts of the directory are, a run never drops or
    changes a table or an index that was there before it, whether it
    succeeds or fails: every name keeps the definition it had. *)
Theorem migrations_keep_existing_relations
    (migrations : embed.FS (list ddl.stmt))
    (rels : gmap string ddl.relation) (name : string) (rel : ddl.relation) :
  rels !! name = Some rel ->
  migrated (migrate.RunMigrations migrations ddl.Exec rels) !! name = Some rel.
Proof.
  intros L. apply (lookup_weaken _ _ _ _ L).
  unfold migrate.RunMigrations.
  destruct (embed.ReadDir migrations "migrations") as [x|entries];
    [reflexivity|apply each_entry_extends].
Qed.

Lemma migrations_keep_existing_relations_witness :
  migrated
    (migrate.RunMigrations ddl.embedded ddl.Exec
       {[ "repositories" := ddl.Table [ddl.text_key] [] ]})
  !! "repositories"
  = Some (ddl.Table [ddl.text_key] []).
Proof.
  apply (migrations_keep_existing_relations ddl.embedded
           {[ "repositories" := ddl.Table [ddl.text_key] [] ]}).
  vm_compute. reflexivity.
Defined.

(** X17. The migrations can be run at every start: after a run that
    returned nil, a second run returns nil too, prints the same lines and
    leaves the database exactly as the first one left it. *)
Theorem migrations_rerun_changes_nothing
    (migrations : embed.FS (list ddl.stmt))
    (rels : gmap string ddl.relation) :
  let first := migrate.RunMigrations migrations ddl.Exec rels in
  err first = None ->
  migrate.RunMigrations migrations ddl.Exec (migrated first)
  = {| printed := printed first; migrated := migrated first; err := None |}.
Proof.
  intros first. subst first. unfold migrate.RunMigrations.
  destruct (embed.ReadDir migrations "migrations") as [x|entries];
    [discriminate|].
  intros H.
  rewrite (each_entry_rerun migrations _ _ _ H _ [] (reflexivity _)).
  now rewrite (each_entry_success migrations ddl.Exec _ _ _ H).
Qed.

Lemma migrations_rerun_changes_nothing_witness :
  err (migrate.RunMigrations ddl.embedded ddl.Exec
         (migrated (migrate.RunMigrations ddl.embedded ddl.Exec ∅)))
  = None.
Proof.
  pose proof (migrations_rerun_changes_nothing ddl.embedded ∅) as H.
  cbv zeta in H. rewrite H; [reflexivity|]. vm_compute. reflexivity.
Defined.

(** The embedded directory on an empty database: both files are applied
    and the four relations exist. *)
Example fresh_database :
  let run := migrate.RunMigrations ddl.embedded ddl.Exec ∅ in
  err run = None
  /\ printed run
     = ["Applied migration: 001_initial.sql";
        "Applied migration: 002_executions.sql"]
  /\ ddl.has_uuid_key (migrated run) "repositories"
  /\ ddl.has_uuid_key (migrated run) "replication_targets"
  /\ ddl.has_uuid_key (migrated run) "executions"
  /\ migrated run !! "idx_replication_targets_repository_id"
     = Some (ddl.Index "replication_targets" ["repository_id"]).
Proof.
  repeat split; try (vm_compute; reflexivity);
    (eexists _, _, _; repeat split; vm_compute; reflexivity).
Qed.

(** ** What the second file needs *)

Lemma ref_ok_elsewhere (rels : gmap string ddl.relation) self cols ty r :
  ddl.ref_table r <> self ->
  ddl.ref_ok rels self cols ty r = true ->
  exists cs fks c,
    rels !! ddl.ref_table r = Some (ddl.Table cs fks)
    /\ ddl.find_column cs (ddl.ref_column r) = Some c
    /\ ddl.primary_key c = true /\ ddl.col_type c = ty.
Proof.
  intros Hne. unfold ddl.ref_ok.
  apply String.eqb_neq in Hne. rewrite Hne.
  destruct (rels !! ddl.ref_table r) as [[cs fks|t ics]|];
    try (intros H; discriminate H).
  destruct (ddl.find_column cs (ddl.ref_column r)) as [c|] eqn:F;
    [|intros H; discriminate H].
  intros H. apply andb_true_iff in H as [H1 H2]. apply String.eqb_eq in H2.
  exists cs, fks, c. repeat split; first [assumption|reflexivity].
Qed.

Lemma executions_requires (rels rels' : gmap string ddl.relation) :
  ddl.Exec ddl.executions rels = inr rels' ->
  is_Some (rels !! "executions")
  \/ (ddl.has_uuid_key rels "repositories"
      /\ ddl.has_uuid_key rels "replication_targets").
Proof.
  unfold ddl.Exec, ddl.executions, ddl.exec_stmts, ddl.exec_stmt.
  cbn [ddl.stmt_name].
  destruct (rels !! "executions") as [rel|]; [left; eauto|].
  match goal with
  | |- context [if ?b then _ else _] => destruct b eqn:Ok; [|discriminate]
  end.
  intros _. right. apply andb_true_iff in Ok as [_ Ok].
  rewrite forallb_forall in Ok. split.
  - match type of Ok with
    | forall x, In x [?k1; ?k2] -> _ =>
        pose proof (Ok k1 (or_introl eq_refl)) as H
    end.
    unfold ddl.foreign_key_ok in H. cbn [ddl.fk_column ddl.fk_references] in H.
    match type of H with
    | context [ddl.find_column ?cs ?n] =>
        destruct (ddl.find_column cs n) as [c|] eqn:F; [|discriminate]
    end.
    vm_compute in F. injection F as <-.
    apply ref_ok_elsewhere in H; [|discriminate]. exact H.
  - match type of Ok with
    | forall x, In x [?k1; ?k2] -> _ =>
        pose proof (Ok k2 (or_intror (or_introl eq_refl))) as H
    end.
    unfold ddl.foreign_key_ok in H. cbn [ddl.fk_column ddl.fk_references] in H.
    match type of H with
    | context [ddl.find_column ?cs ?n] =>
        destruct (ddl.find_column cs n) as [c|] eqn:F; [|discriminate]
    end.
    vm_compute in F. injection F as <-.
    apply ref_ok_elsewhere in H; [|discriminate]. exact H.
Qed.



Lemma sort_embedded :
  migrate.sort_Slice
    [ {| fs.Name := "001_initial.sql"; fs.IsDir := false |};
      {| fs.Name := "002_executions.sql"; fs.IsDir := false |} ]
  = [ {| fs.Name := "001_initial.sql"; fs.IsDir := false |};
      {| fs.Name := "002_executions.sql"; fs.IsDir := false |} ].
Proof. reflexivity. Qed.

Lemma run_embedded (rels : gmap string ddl.relation) :
  migrate.RunMigrations ddl.embedded ddl.Exec rels
  = match ddl.Exec ddl.initial rels with
    | inl x =>
        {| printed := []; migrated := rels;
           err := Some ("failed to execute migration 001_initial.sql: " +:+ x) |}
    | inr rels1 =>
        match ddl.Exec ddl.executions rels1 with
        | inl x =>
            {| printed := ["Applied migration: 001_initial.sql"];
               migrated := rels1;
               err := Some ("failed to execute migration 002_executions.sql: "
                            +:+ x) |}
        | inr rels2 =>
            {| printed := ["Applied migration: 001_initial.sql";
                           "Applied migration: 002_executions.sql"];
               migrated := rels2; err := None |}
        end
    end.
Proof.
  unfold migrate.RunMigrations.
  change (embed.ReadDir ddl.embedded "migrations")
    with (@inr string _
            [ {| fs.Name := "001_initial.sql"; fs.IsDir := false |};
              {| fs.Name := "002_executions.sql"; fs.IsDir := false |} ]).
  cbv iota. rewrite sort_embedded.
  cbn [migrate.each_entry fs.IsDir fs.Name].
  change (embed.ReadFile ddl.embedded
            (migrate.path_Join "migrations" "001_initial.sql"))
    with (@inr string _ ddl.initial).
  change (embed.ReadFile ddl.embedded
            (migrate.path_Join "migrations" "002_executions.sql"))
    with (@inr string _ ddl.executions).
  cbv iota.
  destruct (ddl.Exec ddl.initial rels) as [x|rels1]; [reflexivity|].
  destruct (ddl.Exec ddl.executions rels1) as [x|rels2]; reflexivity.
Qed.

(** X19. A database whose repositories table has an id column of another
    type than UUID (the earlier initial script made it TEXT) is not brought
    up to date by the migrations: the existing table is skipped, not
    altered, and the run returns an error instead of creating executions,
    which cannot reference that column. *)
Theorem earlier_schema_is_not_upgraded
    (rels : gmap string ddl.relation)
    (cols : list ddl.column) (fks : list ddl.foreign_key) (c : ddl.column) :
  rels !! "repositories" = Some (ddl.Table cols fks) ->
  ddl.find_column cols "id" = Some c ->
  ddl.col_type c <> "UUID" ->
  rels !! "executions" = None ->
  let run := migrate.RunMigrations ddl.embedded ddl.Exec rels in
  err run <> None
  /\ migrated run !! "repositories" = Some (ddl.Table cols fks)
  /\ migrated run !! "executions" = None.
Proof.
  intros R F T E run. subst run. rewrite run_embedded.
  destruct (ddl.Exec ddl.initial rels) as [x|rels1] eqn:E1.
  { simpl. repeat split; [discriminate|assumption..]. }
  apply exec_stmts_extends in E1 as (Sub & _ & Same).
  assert (rels1 !! "repositories" = Some (ddl.Table cols fks)) as R1
    by exact (lookup_weaken _ _ _ _ R Sub).
  assert (rels1 !! "executions" = None) as N1.
  { rewrite Same; [exact E|]. intros H. apply list_elem_of_In in H.
    simpl in H. intuition discriminate. }
  destruct (ddl.Exec ddl.executions rels1) as [x|rels2] eqn:E2.
  { simpl. repeat split; [discriminate|assumption..]. }
  exfalso. apply executions_requires in E2 as [[rel H]|[H _]].
  - congruence.
  - destruct H as (cols' & fks' & c' & H1 & H2 & _ & H4).
    rewrite R1 in H1. injection H1 as <- <-. congruence.
Qed.

Lemma earlier_schema_is_not_upgraded_witness :
  exists rels,
    ddl.Exec ddl.earlier_initial ∅ = inr rels
    /\ err (migrate.RunMigrations ddl.embedded ddl.Exec rels) <> None.
Proof.
  eexists. split; [vm_compute; reflexivity|].
  refine (proj1 (earlier_schema_is_not_upgraded _
                   [ ddl.text_key; ddl.text "name"; ddl.text "source_provider";
                     ddl.text "source_url"; ddl.created_at ] [] ddl.text_key
                   _ eq_refl _ _)).
  - vm_compute. reflexivity.
  - discriminate.
  - vm_compute. reflexivity.
Defined.

(** * [main] *)

Lemma getEnv_cases environ key d :
  (Getenv environ key = "" /\ getEnv environ key d = d)
  \/ (Getenv environ key <> "" /\ getEnv environ key d = Getenv environ key).
Proof.
  unfold getEnv. destruct (String.eqb_spec (Getenv environ key) ""); simpl; auto.
Qed.

(** X20. [getEnv] gives the value of a variable that is set to a non-empty
    string and the default otherwise: a variable set to the empty string
    counts as not set.  So the listen address of [main] always has a
    non-empty host and a non-empty port, and it is 0.0.0.0:8080 when neither
    variable is set to something. *)
Theorem listen_address (environ : gmap string string) :
  (forall key d v,
      environ !! key = Some v -> v <> "" -> getEnv environ key d = v)
  /\ (forall key d,
        environ !! key = None \/ environ !! key = Some "" ->
        getEnv environ key d = d)
  /\ (exists host port,
        addr environ = host +:+ ":" +:+ port /\ host <> "" /\ port <> "")
  /\ (Getenv environ "SERVER_HOST" = "" -> Getenv environ "SERVER_PORT" = "" ->
      addr environ = "0.0.0.0:8080").
Proof.
  split; [|split; [|split]].
  - intros key d v L Hv. unfold getEnv, Getenv. rewrite L. simpl.
    apply String.eqb_neq in Hv. now rewrite Hv.
  - intros key d [L|L]; unfold getEnv, Getenv; now rewrite L.
  - exists (getEnv environ "SERVER_HOST" "0.0.0.0"),
           (getEnv environ "SERVER_PORT" "8080").
    split; [reflexivity|]. split.
    + destruct (getEnv_cases environ "SERVER_HOST" "0.0.0.0") as [[_ ->]|[H ->]];
        [discriminate|exact H].
    + destruct (getEnv_cases environ "SERVER_PORT" "8080") as [[_ ->]|[H ->]];
        [discriminate|exact H].
  - intros H P. unfold addr, getEnv. now rewrite H, P.
Qed.

Lemma listen_address_witness :
  getEnv {[ "SERVER_PORT" := "9090"; "SERVER_HOST" := "" ]} "SERVER_PORT" "8080"
  = "9090"
  /\ getEnv {[ "SERVER_PORT" := "9090"; "SERVER_HOST" := "" ]} "SERVER_HOST"
       "0.0.0.0"
     = "0.0.0.0".
Proof.
  pose proof (listen_address {[ "SERVER_PORT" := "9090"; "SERVER_HOST" := "" ]})
    as (Set_ & Unset & _).
  split.
  - apply Set_; [vm_compute; reflexivity | discriminate].
  - apply Unset. right. vm_compute. reflexivity.
Defined.

(** * The single handler *)

Lemma each_repository_faults (e1 e2 : Env) db rows :
  (forall k, fault e1 k = fault e2 k) ->
  forall k repos sent,
    RepoHandler.each_repository e1 db k rows repos sent
    = RepoHandler.each_repository e2 db k rows repos sent.
Proof.
  intros H. induction rows as [|row rows IH]; intros k repos sent;
    [reflexivity|].
  simpl. unfold database.round_trip. rewrite H.
  destruct (fault e2 k); [reflexivity|apply IH].
Qed.

Lemma single_handler_simulated
    (env : Env) (db : database.DB)
    (rr : http.Request CreateRepositoryRequest.t)
    (rt : http.Request CreateTargetRequest.t) :
  (resp (MonolithicHandler.CreateRepository env db rr)
   = resp (RepoHandler.CreateRepository (drawn_by_process env) db rr)
   /\ db_after (MonolithicHandler.CreateRepository env db rr)
      = db_after (RepoHandler.CreateRepository (drawn_by_process env) db rr))
  /\ MonolithicHandler.ListRepositories env db
     = RepoHandler.ListRepositories (drawn_by_process env) db
  /\ (resp (MonolithicHandler.CreateTarget env db rt)
      = resp (TargetHandler.CreateTarget (drawn_by_process env) db rt)
      /\ db_after (MonolithicHandler.CreateTarget env db rt)
         = db_after (TargetHandler.CreateTarget (drawn_by_process env) db rt)).
Proof.
  split; [|split].
  - unfold RepoHandler.CreateRepository, MonolithicHandler.CreateRepository,
      database_sql.insert_repository_returning_id, database.round_trip.
    destruct (http.Decode rr) as [req|]; [simpl|repeat split].
    destruct (database.insert_repository db _); branches.
  - unfold RepoHandler.ListRepositories, MonolithicHandler.ListRepositories,
      database.round_trip. cbn [drawn_by_process fault].
    destruct (fault env 0); [reflexivity|].
    rewrite (each_repository_same env db _ 1 None
               [SelectRepositoriesOrderByCreatedAtDesc]).
    now rewrite (each_repository_faults env (drawn_by_process env) db).
  - unfold TargetHandler.CreateTarget, MonolithicHandler.CreateTarget,
      database_sql.insert_target_returning_id, database.round_trip.
    destruct (http.Decode rt) as [req|]; [simpl|branches].
    destruct (database.insert_target db _); branches.
Qed.

(** X21. The single handler keeps the store consistent as well, draws no
    identifier that is taken (a 201 of its [CreateRepository] adds exactly
    one row, whose identifier was in no row before), and leaves the store as
    it was whenever it answers anything but 201. *)
Theorem single_handler_keeps_store_consistent
    (env : Env) (db : database.DB)
    (rr : http.Request CreateRepositoryRequest.t)
    (rt : http.Request CreateTargetRequest.t) :
  (consistent db ->
   consistent (db_after (MonolithicHandler.CreateRepository env db rr))
   /\ consistent (db_after (MonolithicHandler.ListRepositories env db))
   /\ consistent (db_after (MonolithicHandler.CreateTarget env db rt)))
  /\ (http.Status (resp (MonolithicHandler.CreateRepository env db rr))
      <> http.StatusCreated ->
      db_after (MonolithicHandler.CreateRepository env db rr) = db)
  /\ (http.Status (resp (MonolithicHandler.CreateTarget env db rt))
      <> http.StatusCreated ->
      db_after (MonolithicHandler.CreateTarget env db rt) = db)
  /\ (http.Status (resp (MonolithicHandler.CreateRepository env db rr))
      = http.StatusCreated ->
      (uuid_New env ∉ repository_ids db)
      /\ repository_ids (db_after (MonolithicHandler.CreateRepository env db rr))
         = repository_ids db ++ [uuid_New env]).
Proof.
  destruct (single_handler_simulated env db rr rt)
    as ((R1 & D1) & L & (R2 & D2)).
  split; [|split; [|split]].
  - intros C. rewrite D1, L, D2. split; [|split].
    + now apply CreateRepository_keeps_consistent.
    + now rewrite ListRepositories_reads_only.
    + now apply CreateTarget_keeps_consistent.
  - rewrite R1, D1. apply CreateRepository_not_created.
  - rewrite R2, D2. apply CreateTarget_not_created.
  - rewrite R1, D1. intros Hs.
    destruct (CreateRepository_created _ db rr Hs)
      as (req & _ & _ & _ & _ & _ & Hid & ->).
    split; [exact Hid|]. simpl db_after. now rewrite repository_ids_insert.
Qed.

Lemma single_handler_keeps_store_consistent_witness :
  consistent
    (db_after (MonolithicHandler.CreateRepository (Fixtures.steady 1 "u1")
                 Fixtures.empty (Fixtures.post "" Fixtures.svc)))
  /\ repository_ids
       (db_after (MonolithicHandler.CreateRepository (Fixtures.steady 1 "u1")
                    Fixtures.empty (Fixtures.post "" Fixtures.svc)))
     = ["u1"].
Proof.
  pose proof (single_handler_keeps_store_consistent (Fixtures.steady 1 "u1")
                Fixtures.empty (Fixtures.post "" Fixtures.svc)
                (Fixtures.post "r1" Fixtures.mirror)) as (C & _ & _ & K).
  split.
  - exact (proj1 (C empty_consistent)).
  - exact (proj2 (K eq_refl)).
Defined.
